(** * quickwipe: the erase engine of [main.go]

    A shallow embedding of [allocAlignedBuffer], [wipeDevice] and
    [benchmarkWriteSpeed].  Go's [int] and [int64] are 64-bit two's
    complement integers (linux/amd64), carried as [Z] with the wrap-around
    written out; [float64] is Rocq's primitive binary64 float; the operating
    system (opens, writes, seeks, syncs, the random source, the clock and the
    address the allocator hands out) is an oracle record [env]; the file
    offset, the call counters and everything printed live in a [world] that
    is threaded through the code. *)

From Stdlib Require Import ZArith List Lia Bool Floats.
Import ListNotations.
Open Scope Z_scope.

(** ** Machine integers *)

Module Int64.

Definition min_int : Z := - 2 ^ 63.
Definition max_int : Z := 2 ^ 63 - 1.

(** Two's complement reduction of a mathematical integer. *)
Definition wrap (z : Z) : Z := (z + 2 ^ 63) mod 2 ^ 64 - 2 ^ 63.

Definition add (a b : Z) : Z := wrap (a + b).
Definition sub (a b : Z) : Z := wrap (a - b).
Definition mul (a b : Z) : Z := wrap (a * b).
(** Go's [/] and [%] truncate towards zero. *)
Definition div (a b : Z) : Z := wrap (Z.quot a b).
Definition rem (a b : Z) : Z := Z.rem a b.

Definition in_range (z : Z) : Prop := min_int <= z <= max_int.

End Int64.

(** ** Results of a Go computation *)

(** The errors the two passes return, named after the call that failed.
    [ErrRestore] is "benchmark completed but failed to restore original
    position", [ErrBenchSync] is "benchmark sync failed", [ErrAlloc] is
    "failed to allocate aligned buffer". *)
Inductive goerr : Type :=
| ErrOpen | ErrProbe | ErrAlloc | ErrRand | ErrWrite | ErrSeek
| ErrRestore | ErrBenchSync.

(** A call returns a value, returns a non-nil error, panics at run time, or
    (in the model only) still runs when the fuel of a loop is spent. *)
Inductive outcome (A : Type) : Type :=
| Ret (a : A)
| Fail (err : goerr)
| Panic
| OutOfFuel.

Arguments Ret {A} a.
Arguments Fail {A} err.
Arguments Panic {A}.
Arguments OutOfFuel {A}.

(** ** Slices *)

(** A [[]byte] by its slice header: address of the first element, length and
    capacity.  The bytes are random and are not tracked. *)
Record slice : Type := mkSlice { s_base : Z; s_len : Z; s_cap : Z }.

(** [make([]byte, n)] on an array the allocator placed at [addr]:
    a negative length panics.  Running out of memory is not modelled. *)
Definition make (addr n : Z) : outcome slice :=
  if n <? 0 then Panic else Ret (mkSlice addr n n).

(** The slice expression [b[lo:hi]]: in range when
    [0 <= lo <= hi <= cap(b)], a run-time panic otherwise. *)
Definition reslice (b : slice) (lo hi : Z) : outcome slice :=
  if (0 <=? lo) && (lo <=? hi) && (hi <=? s_cap b)
  then Ret (mkSlice (s_base b + lo) (hi - lo) (s_cap b - lo))
  else Panic.

(** [int(uintptr(unsafe.Pointer(&b[0])))]: indexing an empty slice panics;
    the address, an unsigned 64-bit word, is reinterpreted as an [int]. *)
Definition address_of_first (b : slice) : outcome Z :=
  if 0 <? s_len b then Ret (Int64.wrap (s_base b)) else Panic.

(** ** [allocAlignedBuffer] *)

(** [addr] is where the allocator puts the oversized array. *)
Definition allocAlignedBuffer (addr size : Z) : outcome slice :=
  match make addr (Int64.add size 4096) with
  | Ret buffer =>
      match address_of_first buffer with
      | Ret p =>
          let offset := Int64.sub 4096 (Int64.rem p 4096) in
          let offset := if offset =? 4096 then 0 else offset in
          reslice buffer offset (Int64.add offset size)
      | Fail err => Fail err
      | Panic => Panic
      | OutOfFuel => OutOfFuel
      end
  | Fail err => Fail err
  | Panic => Panic
  | OutOfFuel => OutOfFuel
  end.

(** The rounding both callers apply to [bufferSize] before allocating
    ([wipeDevice] and [benchmarkWriteSpeed], "Ensure buffer size is aligned
    to 4KB"). *)
Definition alignedBufferSize (bufferSize : Z) : Z :=
  let a := Int64.mul (Int64.div bufferSize 4096) 4096 in
  if a <? 4096 then 4096 else a.

(** ** Floating point and time *)

(** The conversion [float64(x)] of an [int64], rounding to nearest even. *)
Definition float64_of_int64 (z : Z) : float :=
  if z =? Int64.min_int then (- 9223372036854775808)%float
  else if z <? 0 then (- PrimFloat.of_uint63 (Uint63.of_Z (- z)))%float
  else PrimFloat.of_uint63 (Uint63.of_Z z).

(** [time.Second] and the progress interval, in nanoseconds. *)
Definition Second : Z := 1000000000.
Definition updateInterval : Z := Second.

(** [t.Sub(u)]: the difference of two clock readings as a [Duration],
    saturating at the ends of [int64]. *)
Definition time_Sub (t u : Z) : Z :=
  Z.max Int64.min_int (Z.min Int64.max_int (t - u)).

(** [d.Seconds()] of package [time]. *)
Definition Seconds (d : Z) : float :=
  let sec := Int64.div d Second in
  let nsec := Int64.rem d Second in
  (float64_of_int64 sec + float64_of_int64 nsec / 1e9)%float.

(** The constant [smoothingFactor] and the constant expression
    [1-smoothingFactor], which Go folds exactly before rounding to
    [float64]: the doubles nearest to 0.2 and to 0.8. *)
Definition smoothingFactor : float := 0x1.999999999999ap-3%float.
Definition one_minus_smoothingFactor : float := 0x1.999999999999ap-1%float.

(** The smoothed-speed assignment of the progress block. *)
Definition smooth (smoothedSpeed instantSpeed : float) : float :=
  if PrimFloat.eqb smoothedSpeed 0%float then instantSpeed
  else (smoothedSpeed * one_minus_smoothingFactor
        + instantSpeed * smoothingFactor)%float.

(** ** The operating system *)

(** What the outside world answers.  Calls of one kind are numbered in the
    order the program makes them, from 0. *)
Record env : Type := mkEnv {
  open_direct : bool;                (* OpenFile with O_DIRECT|O_SYNC succeeds *)
  open_sync : bool;                  (* the fallback OpenFile succeeds *)
  device_size : option Z;            (* getDeviceSize: None for an error *)
  heap_addr : Z;                     (* address of the array [make] allocates *)
  rand_read : nat -> bool;           (* the i-th rand.Read returns a nil error *)
  file_write : nat -> Z -> option Z; (* the i-th Write, of a slice of the given
                                        length: bytes written, None for an error *)
  file_seek : nat -> bool;           (* the i-th Seek returns a nil error *)
  file_sync : bool;                  (* Sync returns a nil error *)
  clock : nat -> Z                   (* the i-th reading of the clock, in ns *)
}.

Inductive whence : Type := SeekStart | SeekCurrent.

(** What the program prints, with the values that go into the text. *)
Inductive message : Type :=
| WarnDirectIO
| WarnFinalSync
| Progress (percentComplete : float) (processed size : Z)
           (instantSpeed etaSeconds : float) (coverage : option float)
| Summary (processed totalTime : Z) (averageSpeed : float)
          (overwritten : option (Z * float))
| BenchStart (benchSize : Z)
| BenchProgress (percentComplete : float)
| BenchDone (written : Z) (elapsed : float).

Inductive event : Type :=
| EvWrite (requested n : Z)
| EvSeek (offset : Z) (w : whence)
| EvSync (ok : bool)
| EvPrint (m : message).

(** The state the code acts on: the offset of the open file, how many calls
    of each kind were made, and the events so far, oldest first. *)
Record world : Type := mkWorld {
  pos : Z;
  n_rand : nat;
  n_write : nat;
  n_seek : nat;
  n_clock : nat;
  trace : list event
}.

(** The offset OpenFile gives a fresh handle, nothing done yet. *)
Definition fresh : world := mkWorld 0 0 0 0 0 [].

(** ** State and error monad *)

Definition M (A : Type) : Type := world -> outcome (A * world).

Definition ret {A : Type} (a : A) : M A := fun w => Ret (a, w).

Definition bind {A B : Type} (m : M A) (k : A -> M B) : M B :=
  fun w =>
    match m w with
    | Ret (a, w') => k a w'
    | Fail err => Fail err
    | Panic => Panic
    | OutOfFuel => OutOfFuel
    end.

Definition fail {A : Type} (err : goerr) : M A := fun _ => Fail err.

Definition lift {A : Type} (o : outcome A) : M A :=
  fun w =>
    match o with
    | Ret a => Ret (a, w)
    | Fail err => Fail err
    | Panic => Panic
    | OutOfFuel => OutOfFuel
    end.

Declare Scope go_scope.
Delimit Scope go_scope with go.
Notation "x <- m ;; k" := (bind m (fun x => k))
  (at level 61, m at next level, right associativity) : go_scope.
Notation "m ;;; k" := (bind m (fun _ => k))
  (at level 61, right associativity) : go_scope.
Open Scope go_scope.

(** [if err != nil { return e }] on a result that is [None] for an error. *)
Definition orfail {A : Type} (r : option A) (err : goerr) : M A :=
  match r with
  | Some a => ret a
  | None => fail err
  end.

Definition emit (ev : event) : M unit :=
  fun w => Ret (tt, mkWorld (pos w) (n_rand w) (n_write w) (n_seek w)
                            (n_clock w) (trace w ++ [ev])).

Definition print (m : message) : M unit := emit (EvPrint m).

Section Engine.

Variable e : env.

(** [rand.Read(buffer)]: true for a nil error. *)
Definition rand_Read : M bool :=
  fun w => Ret (rand_read e (n_rand w),
                mkWorld (pos w) (S (n_rand w)) (n_write w) (n_seek w)
                        (n_clock w) (trace w)).

(** [file.Write(b)]: the byte count when the error is nil; the offset moves
    by that count. *)
Definition file_Write (b : slice) : M (option Z) :=
  fun w =>
    match file_write e (n_write w) (s_len b) with
    | Some n =>
        Ret (Some n,
             mkWorld (pos w + n) (n_rand w) (S (n_write w)) (n_seek w)
                     (n_clock w) (trace w ++ [EvWrite (s_len b) n]))
    | None =>
        Ret (None,
             mkWorld (pos w) (n_rand w) (S (n_write w)) (n_seek w)
                     (n_clock w) (trace w))
    end.

(** [file.Seek(offset, whence)]: the new offset when the error is nil. *)
Definition file_Seek (offset : Z) (wh : whence) : M (option Z) :=
  fun w =>
    if file_seek e (n_seek w) then
      let p := match wh with
               | SeekStart => offset
               | SeekCurrent => pos w + offset
               end in
      Ret (Some p,
           mkWorld p (n_rand w) (n_write w) (S (n_seek w)) (n_clock w)
                   (trace w ++ [EvSeek offset wh]))
    else
      Ret (None,
           mkWorld (pos w) (n_rand w) (n_write w) (S (n_seek w)) (n_clock w)
                   (trace w)).

(** [file.Sync()]: true for a nil error. *)
Definition file_Sync : M bool :=
  emit (EvSync (file_sync e)) ;;; ret (file_sync e).

(** [time.Now()]. *)
Definition time_Now : M Z :=
  fun w => Ret (clock e (n_clock w),
                mkWorld (pos w) (n_rand w) (n_write w) (n_seek w)
                        (S (n_clock w)) (trace w)).

(** [time.Since(t)]. *)
Definition time_Since (t : Z) : M Z :=
  now <- time_Now ;; ret (time_Sub now t).

(** The two-step open both passes start with. *)
Definition open_device : M unit :=
  if open_direct e then ret tt
  else print WarnDirectIO ;;;
       if open_sync e then ret tt else fail ErrOpen.

(** [getDeviceSize(path)], which works on a handle of its own. *)
Definition getDeviceSize : M Z := orfail (device_size e) ErrProbe.

End Engine.

(** ** [wipeDevice] *)

(** The locals the wipe loop updates. *)
Record wipe_state : Type := mkWipe {
  bytesWritten : Z;
  bytesProcessed : Z;
  lastUpdateTime : Z;
  lastUpdateBytes : Z;
  smoothedSpeed : float
}.

(** The body of [if currentTime.Sub(lastUpdateTime) >= updateInterval]:
    the line it prints and the locals after it.  The ETA is carried in
    seconds, as [etaSeconds]; its conversion to a [Duration] and the text
    formatting belong to the caller's side. *)
Definition progress_update (size skipFactor currentTime : Z) (s : wipe_state)
  : message * wipe_state :=
  let elapsedUpdate := Seconds (time_Sub currentTime (lastUpdateTime s)) in
  let instantSpeed :=
    (float64_of_int64 (Int64.sub (bytesProcessed s) (lastUpdateBytes s))
     / elapsedUpdate)%float in
  let smoothed := smooth (smoothedSpeed s) instantSpeed in
  let remainingBytes := Int64.sub size (bytesProcessed s) in
  let etaSeconds := (float64_of_int64 remainingBytes / smoothed)%float in
  let percentComplete :=
    (float64_of_int64 (bytesProcessed s) / float64_of_int64 size * 100)%float in
  let coverage :=
    if 1 <? skipFactor
    then Some (float64_of_int64 (bytesWritten s) / float64_of_int64 size
               * 100)%float
    else None in
  (Progress percentComplete (bytesProcessed s) size instantSpeed etaSeconds
            coverage,
   mkWipe (bytesWritten s) (bytesProcessed s) currentTime (bytesProcessed s)
          smoothed).

(** The summary printed after the loop. *)
Definition summary (size skipFactor totalTime : Z) (s : wipe_state) : message :=
  let averageSpeed :=
    (float64_of_int64 (bytesProcessed s) / Seconds totalTime)%float in
  Summary (bytesProcessed s) totalTime averageSpeed
          (if 1 <? skipFactor
           then Some (bytesWritten s,
                      (float64_of_int64 (bytesWritten s)
                       / float64_of_int64 size * 100)%float)
           else None).

Section Wipe.

Variable e : env.
Variables size bufferSize skipFactor : Z.
Variable buffer : slice.

(** [writeSize]: [int64(bufferSize)], or what is left of the device. *)
Definition wipe_writeSize (s : wipe_state) : Z :=
  let writeSize := bufferSize in
  if Int64.sub size (bytesProcessed s) <? writeSize
  then Int64.sub size (bytesProcessed s)
  else writeSize.

(** [skipSize] for a pass that has processed [processed] bytes. *)
Definition wipe_skipSize (processed : Z) : Z :=
  let skipSize := Int64.mul bufferSize (Int64.sub skipFactor 1) in
  if size <? Int64.add processed skipSize
  then Int64.sub size processed
  else skipSize.

(** The head of a turn: refill the buffer, write [buffer[:writeSize]]. *)
Definition wipe_write (s : wipe_state) : M Z :=
  ok <- rand_Read e ;;
  if negb ok then fail ErrRand else
  b <- lift (reslice buffer 0 (wipe_writeSize s)) ;;
  r <- file_Write e b ;;
  orfail r ErrWrite.

(** [if skipFactor > 1 && bytesProcessed < size]: seek over the blocks to
    skip; the value is [bytesProcessed] after the block. *)
Definition wipe_skip (processed : Z) : M Z :=
  if (1 <? skipFactor) && (processed <? size) then
    let skipSize := wipe_skipSize processed in
    r <- file_Seek e skipSize SeekCurrent ;;
    orfail r ErrSeek ;;;
    ret (Int64.add processed skipSize)
  else ret processed.

(** The progress block that closes a turn. *)
Definition wipe_progress (s : wipe_state) : M wipe_state :=
  currentTime <- time_Now e ;;
  if updateInterval <=? time_Sub currentTime (lastUpdateTime s) then
    let (line, s') := progress_update size skipFactor currentTime s in
    print line ;;; ret s'
  else ret s.

(** One turn of [for bytesProcessed < size]. *)
Definition wipe_iter (s : wipe_state) : M wipe_state :=
  n <- wipe_write s ;;
  let written := Int64.add (bytesWritten s) n in
  let processed := Int64.add (bytesProcessed s) n in
  processed <- wipe_skip processed ;;
  wipe_progress (mkWipe written processed (lastUpdateTime s)
                        (lastUpdateBytes s) (smoothedSpeed s)).

Fixpoint wipe_loop (fuel : nat) (s : wipe_state) : M wipe_state :=
  if bytesProcessed s <? size then
    match fuel with
    | O => fun _ => OutOfFuel
    | S fuel' => s' <- wipe_iter s ;; wipe_loop fuel' s'
    end
  else ret s.

End Wipe.

(** The function up to the end of its loop: the start time and the locals
    of the loop. *)
Definition wipe_pass (e : env) (fuel : nat) (size bufferSize skipFactor : Z)
  : M (Z * wipe_state) :=
  open_device e ;;;
  buffer <- lift (allocAlignedBuffer (heap_addr e)
                                     (alignedBufferSize bufferSize)) ;;
  startTime <- time_Now e ;;
  s <- wipe_loop e size bufferSize skipFactor buffer fuel
                 (mkWipe 0 0 startTime 0 0%float) ;;
  ret (startTime, s).

(** [wipeDevice(path, size, bufferSize, skipFactor)].  A nil error is [Ret]
    with the locals [bytesWritten] and [bytesProcessed] (and the rest of
    the loop state) as they are when the function returns.  The deferred
    [file.Close()] is not modelled. *)
Definition wipeDevice (e : env) (fuel : nat) (size bufferSize skipFactor : Z)
  : M wipe_state :=
  x <- wipe_pass e fuel size bufferSize skipFactor ;;
  let (startTime, s) := x in
  totalTime <- time_Since e startTime ;;
  print (summary size skipFactor totalTime s) ;;;
  ok <- file_Sync e ;;
  (if ok then ret tt else print WarnFinalSync) ;;;
  ret s.

(** ** [benchmarkWriteSpeed] *)

Section Benchmark.

Variable e : env.
Variable bufferSize : Z.

(** The benchmark volume for a device of [deviceSize] bytes. *)
Definition benchVolume (deviceSize : Z) : Z :=
  let benchSize := 10737418240 in
  if deviceSize <? Int64.mul benchSize 2 then
    let benchSize := Int64.div deviceSize 4 in
    if benchSize <? Int64.mul bufferSize 2
    then Int64.mul bufferSize 2
    else benchSize
  else benchSize.

Fixpoint bench_loop (fuel : nat) (benchSize : Z) (buffer : slice)
                    (written : Z) : M Z :=
  if written <? benchSize then
    match fuel with
    | O => fun _ => OutOfFuel
    | S fuel' =>
        ok <- rand_Read e ;;
        if negb ok then fail ErrRand else
        let writeSize := bufferSize in
        let writeSize :=
          if Int64.sub benchSize written <? writeSize
          then Int64.sub benchSize written
          else writeSize in
        b <- lift (reslice buffer 0 writeSize) ;;
        r <- file_Write e b ;;
        n <- orfail r ErrWrite ;;
        let written := Int64.add written n in
        print (BenchProgress
                 (float64_of_int64 written / float64_of_int64 benchSize
                  * 100)%float) ;;;
        bench_loop fuel' benchSize buffer written
    end
  else ret written.

(** The function up to the end of its write loop: the offset recorded
    before the first write, the start time and the bytes written. *)
Definition benchmark_writes (fuel : nat) : M (Z * Z * Z) :=
  open_device e ;;;
  buffer <- lift (allocAlignedBuffer (heap_addr e)
                                     (alignedBufferSize bufferSize)) ;;
  deviceSize <- getDeviceSize e ;;
  let benchSize := benchVolume deviceSize in
  print (BenchStart benchSize) ;;;
  startTime <- time_Now e ;;
  r <- file_Seek e 0 SeekCurrent ;;
  originalPos <- orfail r ErrSeek ;;
  written <- bench_loop fuel benchSize buffer 0 ;;
  ret (originalPos, startTime, written).

(** [benchmarkWriteSpeed(path, bufferSize)]: the write speed in bytes per
    second. *)
Definition benchmarkWriteSpeed (fuel : nat) : M float :=
  x <- benchmark_writes fuel ;;
  let '(originalPos, startTime, written) := x in
  r <- file_Seek e originalPos SeekStart ;;
  orfail r ErrRestore ;;;
  ok <- file_Sync e ;;
  if negb ok then fail ErrBenchSync else
  elapsed <- time_Since e startTime ;;
  let elapsedTime := Seconds elapsed in
  let writeSpeed := (float64_of_int64 written / elapsedTime)%float in
  print (BenchDone written elapsedTime) ;;;
  ret writeSpeed.

End Benchmark.

(** ** Vocabulary of the statements *)

(** The sizes of the writes and the offsets of the seeks in a trace, in
    order. *)
Definition write_sizes (t : list event) : list Z :=
  flat_map (fun ev => match ev with EvWrite _ n => [n] | _ => [] end) t.

Definition seek_offsets (t : list event) : list Z :=
  flat_map (fun ev => match ev with EvSeek d _ => [d] | _ => [] end) t.

(** The writes and seeks of a trace: what reached the device. *)
Definition device_ops (t : list event) : list event :=
  flat_map (fun ev => match ev with
                      | EvWrite _ _ | EvSeek _ _ => [ev]
                      | _ => []
                      end) t.

Definition messages (t : list event) : list message :=
  flat_map (fun ev => match ev with EvPrint m => [m] | _ => [] end) t.

Definition total (l : list Z) : Z := fold_right Z.add 0 l.

(** The write and skip sizes in the words of the specification:
    [min(bufferSize, size - bytesProcessed)], and
    [bufferSize * (skipFactor - 1)] clamped to what remains. *)
Definition spec_writeSize (size bufferSize processed : Z) : Z :=
  Z.min bufferSize (size - processed).

Definition spec_skipSize (size bufferSize skipFactor processed : Z) : Z :=
  Z.min (bufferSize * (skipFactor - 1)) (size - processed).

(** The turns of a pass in the words of the specification, from
    [processed] bytes on: write [writeSize] bytes; if [skipFactor > 1] and
    bytes remain, seek forward by [skipSize]; repeat until the device end. *)
Fixpoint expected_ops (turns : nat) (size bufferSize skipFactor processed : Z)
  : list event :=
  match turns with
  | O => []
  | S turns' =>
      if processed <? size then
        let ws := spec_writeSize size bufferSize processed in
        let p1 := processed + ws in
        let sk := if (1 <? skipFactor) && (p1 <? size)
                  then [spec_skipSize size bufferSize skipFactor p1]
                  else [] in
        EvWrite ws ws :: map (fun d => EvSeek d SeekCurrent) sk
        ++ expected_ops turns' size bufferSize skipFactor (p1 + total sk)
      else []
  end.

(** An operating system on which nothing fails and every write is whole. *)
Record healthy (e : env) : Prop := mkHealthy {
  h_open : open_direct e = true \/ open_sync e = true;
  h_rand : forall i, rand_read e i = true;
  h_write : forall i len, file_write e i len = Some len;
  h_seek : forall i, file_seek e i = true
}.

(** [int64(bufferSize) * int64(skipFactor-1)] and the sum
    [bytesProcessed + skipSize] stay below [2^63]. *)
Definition no_overflow (size bufferSize skipFactor : Z) : Prop :=
  skipFactor = 1 \/ size + bufferSize * (skipFactor - 1) <= Int64.max_int.

(** The counters of the loop head: written bytes never exceed processed
    bytes, processed bytes never exceed the device, and one byte in
    [skipFactor] has been written, up to the clamping of the last turn. *)
Definition counters_ok (size bufferSize skipFactor : Z) (s : wipe_state) : Prop :=
  0 <= bytesWritten s <= bytesProcessed s /\
  bytesProcessed s <= size /\
  bytesProcessed s <= skipFactor * bytesWritten s
    <= bytesProcessed s + (skipFactor - 1) * bufferSize /\
  (bytesProcessed s < size -> skipFactor * bytesWritten s = bytesProcessed s).

(** ** Scenarios *)

(** A system on which every call succeeds: the array lands at [addr], the
    device has [deviceSize] bytes, and the clock advances by [tick]
    nanoseconds from one reading to the next. *)
Definition steady (addr deviceSize tick : Z) : env :=
  mkEnv true true (Some deviceSize) addr (fun _ => true)
        (fun _ len => Some len) (fun _ => true) true
        (fun i => Z.of_nat i * tick).

(** The same system with a [Sync] that fails. *)
Definition sync_fails (addr deviceSize tick : Z) : env :=
  mkEnv true true (Some deviceSize) addr (fun _ => true)
        (fun _ len => Some len) (fun _ => true) false
        (fun i => Z.of_nat i * tick).

(** The same system where only the second seek on the handle fails: in the
    benchmark, the one that restores the offset. *)
Definition restore_fails (addr deviceSize tick : Z) : env :=
  mkEnv true true (Some deviceSize) addr (fun _ => true)
        (fun _ len => Some len) (fun i => negb (Nat.eqb i 1)) true
        (fun i => Z.of_nat i * tick).

(** A page-aligned heap address, and the byte after it. *)
Definition page : Z := 0xc000000000.
Definition off_page : Z := 0xc000000001.

(** A 20000-byte device on such systems, the clock advancing one
    millisecond per reading. *)
Definition small_device : env := steady page 20000 1000000.
Definition small_device_sync_fails : env := sync_fails page 20000 1000000.
Definition small_device_restore_fails : env :=
  restore_fails page 20000 1000000.

(** * The command line and the formatting helpers *)

From Stdlib Require Import String Ascii.

(** ** [formatBytes] *)





(** ** [formatDuration] *)

Definition Minute : Z := 60 * Second.
Definition Hour : Z := 60 * Minute.

(** [lessThanHalf(x, y)] of package [time]:
    [uint64(x)+uint64(x) < uint64(y)]. *)
Definition lessThanHalf (x y : Z) : bool :=
  (x mod 2 ^ 64 + x mod 2 ^ 64) mod 2 ^ 64 <? y mod 2 ^ 64.

(** [d.Round(m)] of package [time]: to the nearest multiple of [m], halfway
    values away from zero, saturating at the ends of [int64]. *)
Definition Duration_Round (d m : Z) : Z :=
  if m <=? 0 then d
  else
    let r := Int64.rem d m in
    if d <? 0 then
      let r := Int64.sub 0 r in
      if lessThanHalf r m then Int64.add d r
      else
        let d1 := Int64.add (Int64.sub d m) r in
        if d1 <? d then d1 else Int64.min_int
    else
      if lessThanHalf r m then Int64.sub d r
      else
        let d1 := Int64.sub (Int64.add d m) r in
        if d <? d1 then d1 else Int64.max_int.

(** What [formatDuration] hands to [Sprintf]: hours, minutes and seconds
    for ["%02d:%02d:%02d"], or minutes and seconds for ["%02d:%02d"]. *)
Inductive duration_text : Type :=
| HoursMinutesSeconds (h m s : Z)
| MinutesSeconds (m s : Z).

Definition formatDuration (d : Z) : duration_text :=
  let d := Duration_Round d Second in
  let h := Int64.div d Hour in
  let d := Int64.sub d (Int64.mul h Hour) in
  let m := Int64.div d Minute in
  let d := Int64.sub d (Int64.mul m Minute) in
  let s := Int64.div d Second in
  if 0 <? h then HoursMinutesSeconds h m s else MinutesSeconds m s.

(** ** [main] *)

(** The parsed flags. *)
Record flags : Type := mkFlags {
  f_device : string;
  f_buffer : Z;
  f_skip : Z;
  f_autoSkip : bool;
  f_targetHours : float;
  f_force : bool
}.

(** [strings.ToLower] on ASCII text: the letters [A]-[Z] become [a]-[z],
    every other byte stays. *)
Definition lower_ascii (c : ascii) : ascii :=
  let n := nat_of_ascii c in
  if (65 <=? n)%nat && (n <=? 90)%nat then ascii_of_nat (n + 32) else c.

Fixpoint ToLower (s : string) : string :=
  match s with
  | EmptyString => EmptyString
  | String c s' => String (lower_ascii c) (ToLower s')
  end.

(** [strings.HasPrefix(s, p)]. *)
Definition HasPrefix (s p : string) : bool := String.prefix p s.

(** [fmt.Scanln(&response)] on the answers still to come: the word it
    stores, the empty string when there is none, and the answers left. *)
Definition Scanln (answers : list string) : string * list string :=
  match answers with
  | [] => (EmptyString, [])
  | a :: rest => (a, rest)
  end.

(** The conversion [int(x)] of a [float64]: truncation towards zero, and
    the smallest [int64] for a NaN or a value out of range, as the amd64
    conversion instruction answers. *)
Definition int_of_float64 (x : float) : Z :=
  match Prim2SF x with
  | S754_zero _ => 0
  | S754_finite s m ex =>
      let mag := if 0 <=? ex then Z.pos m * 2 ^ ex
                 else Z.pos m / 2 ^ (- ex) in
      let v := if s then - mag else mag in
      if (Int64.min_int <=? v) && (v <=? Int64.max_int) then v
      else Int64.min_int
  | _ => Int64.min_int
  end.

(** The lines [main] itself prints, with the values that go into them. *)
Inductive cli_line : Type :=
| LineDeviceRequired
| LineUsage
| LineSkipFactor
| LineSizeError (err : goerr)
| LineBenchRunning
| LineBenchError (err : goerr)
| LineBenchComplete (writeSpeed : float)
| LineAutoSkip (skipFactor : Z) (hours : float)
| LineNotDevice
| LineDestructive
| LinePromptContinue
| LineAborted
| LineStarting (size : Z) (quick : option Z)
| LineWarnErase
| LineIrreversible
| LinePromptYES
| LineWipeError (err : goerr)
| LineDone.

(** How a run of [main] ends: [os.Exit(code)] or the return from [main]
    (code 0) with the lines printed and the world as it is then; exit code 1
    after a call of the engine returned an error (the events of the failed
    call are not kept); a run-time panic; or a loop out of fuel. *)
Inductive main_result : Type :=
| Exited (code : Z) (out : list cli_line) (w : world)
| ExitedOnError (err : goerr) (out : list cli_line)
| Crashed
| Unfinished.

(** Where [main] stands before the call of [wipeDevice]. *)
Inductive prepared : Type :=
| Proceed (deviceSize skipFactor : Z) (out : list cli_line) (w : world)
| Stop (r : main_result).

(** The skip factor [main] computes from the benchmarked speed. *)
Definition calculatedSkip (deviceSize : Z) (targetHours writeSpeed : float) : Z :=
  let targetSeconds := (targetHours * 3600)%float in
  let requiredSpeed := (float64_of_int64 deviceSize / targetSeconds)%float in
  let calculated := int_of_float64 (requiredSpeed / writeSpeed)%float in
  if calculated <? 1 then 1 else calculated.

Section Main.

Variable e : env.
Variable fuel : nat.
Variable fl : flags.

(** The final confirmation and what follows it up to the call of
    [wipeDevice]. *)
Definition confirm_erase (deviceSize skipFactor : Z) (answers : list string)
           (out : list cli_line) (w : world) : prepared :=
  let out := out ++ [LineStarting deviceSize
                       (if 1 <? skipFactor then Some skipFactor else None)] in
  if negb (f_force fl) then
    let out := out ++ [LineWarnErase; LineIrreversible; LinePromptYES] in
    let (response, _) := Scanln answers in
    if negb (String.eqb response "YES"%string)
    then Stop (Exited 0 (out ++ [LineAborted]) w)
    else Proceed deviceSize skipFactor out w
  else Proceed deviceSize skipFactor out w.

(** The check of the device path, then the final confirmation. *)
Definition confirm_path (deviceSize skipFactor : Z) (answers : list string)
           (out : list cli_line) (w : world) : prepared :=
  if negb (HasPrefix (f_device fl) "/dev/"%string) && negb (f_force fl) then
    let out := out ++ [LineNotDevice; LineDestructive; LinePromptContinue] in
    let (response, answers) := Scanln answers in
    if negb (HasPrefix (ToLower response) "y"%string)
    then Stop (Exited 0 (out ++ [LineAborted]) w)
    else confirm_erase deviceSize skipFactor answers out w
  else confirm_erase deviceSize skipFactor answers out w.

(** [main] up to the call of [wipeDevice]. *)
Definition main_prepare (answers : list string) (w : world) : prepared :=
  if String.eqb (f_device fl) EmptyString then
    Stop (Exited 1 [LineDeviceRequired; LineUsage] w)
  else if (f_skip fl <? 1) && negb (f_autoSkip fl) then
    Stop (Exited 1 [LineSkipFactor] w)
  else
    match getDeviceSize e w with
    | Fail err => Stop (ExitedOnError err [LineSizeError err])
    | Panic => Stop Crashed
    | OutOfFuel => Stop Unfinished
    | Ret (deviceSize, w) =>
        if f_autoSkip fl then
          match benchmarkWriteSpeed e (f_buffer fl) fuel w with
          | Fail err =>
              Stop (ExitedOnError err [LineBenchRunning; LineBenchError err])
          | Panic => Stop Crashed
          | OutOfFuel => Stop Unfinished
          | Ret (writeSpeed, w) =>
              let skip := calculatedSkip deviceSize (f_targetHours fl)
                                         writeSpeed in
              let hours :=
                (float64_of_int64 deviceSize
                 / (writeSpeed * float64_of_int64 skip) / 3600)%float in
              confirm_path deviceSize skip answers
                [LineBenchRunning; LineBenchComplete writeSpeed;
                 LineAutoSkip skip hours] w
          end
        else confirm_path deviceSize (f_skip fl) answers [] w
    end.

(** [main]. *)
Definition main (answers : list string) (w : world) : main_result :=
  match main_prepare answers w with
  | Stop r => r
  | Proceed deviceSize skipFactor out w =>
      match wipeDevice e fuel deviceSize (f_buffer fl) skipFactor w with
      | Fail err => ExitedOnError err (out ++ [LineWipeError err])
      | Panic => Crashed
      | OutOfFuel => Unfinished
      | Ret (_, w) => Exited 0 (out ++ [LineDone]) w
      end
  end.

End Main.

(** Whether the user agreed to the wipe: [-force], or the answer [YES] to
    the final question, after an answer starting with [y] or [Y] to the
    question about a path outside [/dev/] when that one is asked. *)
Definition confirmed (fl : flags) (answers : list string) : bool :=
  f_force fl
  || (if HasPrefix (f_device fl) "/dev/"%string
      then String.eqb (nth 0 answers EmptyString) "YES"%string
      else HasPrefix (ToLower (nth 0 answers EmptyString)) "y"%string
           && String.eqb (nth 1 answers EmptyString) "YES"%string).

(** Flags for the runs below: a regular file wiped with the default skip
    factor, and the same with [-auto-skip]. *)
Definition image_flags : flags :=
  mkFlags "disk.img"%string 4096 1 false 20%float false.

(** A computation that, when it returns, has only added events to the
    trace, each of them satisfying [P]. *)
Definition appends {A : Type} (P : event -> Prop) (m : M A) : Prop :=
  forall w a w',
    m w = Ret (a, w') -> exists t, trace w' = trace w ++ t /\ Forall P t.

(** Every event but the warning of the fallback open. *)
Definition not_fallback_warning (ev : event) : Prop :=
  ev <> EvPrint WarnDirectIO.

(** An event that is not a write of more than [bufferSize] bytes. *)
Definition write_within (bufferSize : Z) (ev : event) : Prop :=
  match ev with
  | EvWrite requested _ => 0 <= requested <= bufferSize
  | _ => True
  end.

(** A system where only the fallback open succeeds. *)
Definition buffered_only : env :=
  mkEnv false true (Some 20000) page (fun _ => true)
        (fun _ len => Some len) (fun _ => true) true
        (fun i => Z.of_nat i * 1000000).

(** * Properties *)

(** ** Machine arithmetic *)

Lemma wrap_small z : Int64.in_range z -> Int64.wrap z = z.
Proof.
  unfold Int64.in_range, Int64.wrap, Int64.min_int, Int64.max_int.
  intros H. rewrite Z.mod_small; lia.
Qed.

Lemma add_small a b : Int64.in_range (a + b) -> Int64.add a b = a + b.
Proof. apply wrap_small. Qed.

Lemma sub_small a b : Int64.in_range (a - b) -> Int64.sub a b = a - b.
Proof. apply wrap_small. Qed.

Lemma mul_small a b : Int64.in_range (a * b) -> Int64.mul a b = a * b.
Proof. apply wrap_small. Qed.

Lemma div_small a b :
  0 <= a <= Int64.max_int -> 0 < b -> Int64.div a b = a / b.
Proof.
  intros Ha Hb. unfold Int64.div.
  rewrite Z.quot_div_nonneg by lia.
  apply wrap_small. unfold Int64.in_range, Int64.min_int, Int64.max_int in *.
  pose proof (Z.div_pos a b). pose proof (Z.div_le_upper_bound a b (2 ^ 63 - 1)).
  assert (a / b <= a) by (apply Z.div_le_upper_bound; nia).
  lia.
Qed.

Lemma rem_nonneg a b : 0 <= a -> 0 < b -> Int64.rem a b = a mod b.
Proof. intros. unfold Int64.rem. apply Z.rem_mod_nonneg; lia. Qed.

Ltac int64_range :=
  unfold Int64.in_range, Int64.min_int, Int64.max_int in *.

(** ** The aligned buffer *)

Lemma alignedBufferSize_large size :
  4096 <= size <= Int64.max_int ->
  alignedBufferSize size = size / 4096 * 4096.
Proof.
  intros H. unfold alignedBufferSize.
  assert (Hmax : Int64.max_int = 2 ^ 63 - 1) by reflexivity.
  rewrite div_small by lia.
  pose proof (Z.mul_div_le size 4096).
  assert (1 <= size / 4096) by (apply Z.div_le_lower_bound; lia).
  rewrite mul_small by (int64_range; lia).
  destruct (Z.ltb_spec (size / 4096 * 4096) 4096); lia.
Qed.

Lemma alignedBufferSize_small size :
  0 <= size < 4096 -> alignedBufferSize size = 4096.
Proof.
  intros H. unfold alignedBufferSize, Int64.div.
  rewrite Z.quot_small by lia. reflexivity.
Qed.

(** What [allocAlignedBuffer] returns on an array at a user-space address. *)
Lemma allocAlignedBuffer_spec addr n :
  0 <= addr <= Int64.max_int ->
  0 < n <= Int64.max_int - 4096 ->
  allocAlignedBuffer addr n =
    Ret (mkSlice (addr + (4096 - addr mod 4096) mod 4096) n
                 (n + 4096 - (4096 - addr mod 4096) mod 4096)).
Proof.
  intros Ha Hn.
  assert (Hmax : Int64.max_int = 2 ^ 63 - 1) by reflexivity.
  pose proof (Z.mod_pos_bound addr 4096 ltac:(lia)) as Hm.
  unfold allocAlignedBuffer, make, address_of_first.
  rewrite add_small by (int64_range; lia).
  destruct (Z.ltb_spec (n + 4096) 0); [lia|]. cbn [s_len s_base].
  destruct (Z.ltb_spec 0 (n + 4096)); [|lia].
  rewrite wrap_small by (int64_range; lia).
  rewrite rem_nonneg by lia.
  rewrite sub_small by (int64_range; lia).
  set (offset := if 4096 - addr mod 4096 =? 4096 then 0
                 else 4096 - addr mod 4096).
  assert (Hoff : offset = (4096 - addr mod 4096) mod 4096).
  { subst offset. destruct (Z.eqb_spec (4096 - addr mod 4096) 4096) as [E|E].
    - rewrite E. reflexivity.
    - symmetry. apply Z.mod_small. lia. }
  pose proof (Z.mod_pos_bound (4096 - addr mod 4096) 4096 ltac:(lia)).
  rewrite <- Hoff in *.
  rewrite add_small by (int64_range; lia).
  unfold reslice. cbn [s_cap s_base].
  destruct (Z.leb_spec 0 offset); [|lia].
  destruct (Z.leb_spec offset (offset + n)); [|lia].
  destruct (Z.leb_spec (offset + n) (n + 4096)); [|lia].
  cbn [andb]. f_equal. f_equal; lia.
Qed.

Lemma aligned_offset addr :
  (addr + (4096 - addr mod 4096) mod 4096) mod 4096 = 0.
Proof.
  rewrite Z.add_mod_idemp_r by lia.
  replace (addr + (4096 - addr mod 4096))
    with (addr - addr mod 4096 + 1 * 4096) by lia.
  rewrite Z.mod_add by lia.
  rewrite Zminus_mod_idemp_r. rewrite Z.sub_diag. reflexivity.
Qed.

(** C9: for every [size >= 4096] (small enough for the over-allocation
    [size+4096] to be an [int]) and every array address of the user half of
    the address space, rounding as the callers do and allocating returns a
    region whose start address is 0 modulo 4096, which lies
    [(4096 - address % 4096) % 4096] bytes into the oversized array, and
    whose length is [size] rounded down to a multiple of 4096, at least
    4096. *)
Theorem allocAlignedBuffer_aligned (addr size : Z) :
  0 <= addr <= Int64.max_int ->
  4096 <= size <= Int64.max_int - 4096 ->
  exists b,
    allocAlignedBuffer addr (alignedBufferSize size) = Ret b /\
    s_base b mod 4096 = 0 /\
    s_base b = addr + (4096 - addr mod 4096) mod 4096 /\
    s_len b = Z.max 4096 (size / 4096 * 4096) /\
    s_len b mod 4096 = 0 /\
    4096 <= s_len b <= size.
Proof.
  intros Ha Hs.
  assert (Hmax : Int64.max_int = 2 ^ 63 - 1) by reflexivity.
  rewrite alignedBufferSize_large by lia.
  pose proof (Z.mul_div_le size 4096 ltac:(lia)).
  assert (1 <= size / 4096) by (apply Z.div_le_lower_bound; lia).
  rewrite allocAlignedBuffer_spec by lia.
  eexists. split; [reflexivity|]. cbn [s_base s_len].
  split; [apply aligned_offset|]. split; [reflexivity|].
  split; [lia|]. split; [apply Z.mod_mul; lia|lia].
Qed.

Lemma allocAlignedBuffer_aligned_witness :
  0 <= off_page <= Int64.max_int /\
  4096 <= 5000 <= Int64.max_int - 4096 /\
  exists b,
    allocAlignedBuffer off_page (alignedBufferSize 5000) = Ret b /\
    s_base b mod 4096 = 0 /\
    s_base b = off_page + (4096 - off_page mod 4096) mod 4096 /\
    s_len b = Z.max 4096 (5000 / 4096 * 4096) /\
    s_len b mod 4096 = 0 /\
    4096 <= s_len b <= 5000.
Proof.
  assert (H1 : 0 <= off_page <= Int64.max_int)
    by (unfold off_page, Int64.max_int; lia).
  assert (H2 : 4096 <= 5000 <= Int64.max_int - 4096)
    by (unfold Int64.max_int; lia).
  split; [exact H1|]. split; [exact H2|].
  exact (allocAlignedBuffer_aligned off_page 5000 H1 H2).
Defined.

(** ** Traces *)

Lemma write_sizes_app t u : write_sizes (t ++ u) = write_sizes t ++ write_sizes u.
Proof. apply flat_map_app. Qed.

Lemma seek_offsets_app t u :
  seek_offsets (t ++ u) = seek_offsets t ++ seek_offsets u.
Proof. apply flat_map_app. Qed.

Lemma device_ops_app t u : device_ops (t ++ u) = device_ops t ++ device_ops u.
Proof. apply flat_map_app. Qed.

Lemma messages_app t u : messages (t ++ u) = messages t ++ messages u.
Proof. apply flat_map_app. Qed.

Lemma total_app l m : total (l ++ m) = total l + total m.
Proof.
  unfold total. induction l as [|x l IH]; simpl; [reflexivity | rewrite IH; lia].
Qed.

(** ** The wipe loop without overflow *)

Lemma progress_update_counters size skipFactor t s :
  bytesWritten (snd (progress_update size skipFactor t s)) = bytesWritten s /\
  bytesProcessed (snd (progress_update size skipFactor t s)) = bytesProcessed s.
Proof. split; reflexivity. Qed.

Section WipeLoop.

Variable e : env.
Variables size bufferSize skipFactor : Z.
Variable buffer : slice.

Hypothesis Hhealthy : healthy e.
Hypothesis Hsize : 0 < size <= Int64.max_int.
Hypothesis Hbuf : 0 < bufferSize <= Int64.max_int.
Hypothesis Hskip : 1 <= skipFactor <= Int64.max_int.
Hypothesis Hno : no_overflow size bufferSize skipFactor.
Hypothesis Hcap : Z.min bufferSize size <= s_cap buffer.

Lemma wipe_writeSize_spec s :
  0 <= bytesProcessed s < size ->
  wipe_writeSize size bufferSize s
  = spec_writeSize size bufferSize (bytesProcessed s).
Proof.
  intros H. unfold wipe_writeSize, spec_writeSize.
  rewrite sub_small by (int64_range; lia).
  destruct (Z.ltb_spec (size - bytesProcessed s) bufferSize); lia.
Qed.

Lemma wipe_skipSize_spec p :
  1 < skipFactor -> 0 <= p < size ->
  wipe_skipSize size bufferSize skipFactor p
  = spec_skipSize size bufferSize skipFactor p.
Proof.
  intros Hk Hp. unfold wipe_skipSize, spec_skipSize.
  destruct Hno as [E|Hov]; [lia|].
  assert (0 <= bufferSize * (skipFactor - 1)) by nia.
  rewrite (sub_small skipFactor) by (int64_range; lia).
  rewrite mul_small by (int64_range; lia).
  rewrite add_small by (int64_range; lia).
  rewrite sub_small by (int64_range; lia).
  destruct (Z.ltb_spec size (p + bufferSize * (skipFactor - 1))); lia.
Qed.

Lemma bind_Ret {A B : Type} (m : M A) (k : A -> M B) w a w' :
  m w = Ret (a, w') -> bind m k w = k a w'.
Proof. intros H. unfold bind. rewrite H. reflexivity. Qed.

Lemma wipe_write_spec s w :
  0 <= bytesProcessed s < size ->
  let ws := spec_writeSize size bufferSize (bytesProcessed s) in
  wipe_write e size bufferSize buffer s w =
    Ret (ws, mkWorld (pos w + ws) (S (n_rand w)) (S (n_write w)) (n_seek w)
                     (n_clock w) (trace w ++ [EvWrite ws ws])).
Proof.
  intros Hlt ws.
  assert (Hws : 0 < ws <= bufferSize /\ ws <= size - bytesProcessed s)
    by (subst ws; unfold spec_writeSize; lia).
  unfold wipe_write, bind, rand_Read.
  rewrite (h_rand e Hhealthy). cbn [negb].
  rewrite wipe_writeSize_spec by lia. fold ws.
  unfold lift, reslice.
  destruct (Z.leb_spec 0 0); [|lia].
  destruct (Z.leb_spec 0 ws); [|lia].
  destruct (Z.leb_spec ws (s_cap buffer)); [|lia].
  cbn [andb]. unfold file_Write. cbn [s_len n_write].
  rewrite (h_write e Hhealthy). replace (ws - 0) with ws by lia.
  reflexivity.
Qed.

Lemma wipe_skip_spec p w :
  0 <= p <= size ->
  let sk := if (1 <? skipFactor) && (p <? size)
            then [spec_skipSize size bufferSize skipFactor p] else [] in
  exists w',
    wipe_skip e size bufferSize skipFactor p w = Ret (p + total sk, w') /\
    pos w' = pos w + total sk /\
    write_sizes (trace w') = write_sizes (trace w) /\
    seek_offsets (trace w') = seek_offsets (trace w) ++ sk /\
    device_ops (trace w')
      = device_ops (trace w) ++ map (fun d => EvSeek d SeekCurrent) sk.
Proof.
  intros Hp sk. unfold wipe_skip. subst sk.
  destruct ((1 <? skipFactor) && (p <? size)) eqn:E.
  - apply andb_true_iff in E. destruct E as [Hk Hlt].
    apply Z.ltb_lt in Hk. apply Z.ltb_lt in Hlt.
    rewrite wipe_skipSize_spec by lia.
    set (d := spec_skipSize size bufferSize skipFactor p).
    assert (Hd : 0 <= d <= size - p)
      by (subst d; unfold spec_skipSize; nia).
    unfold bind, file_Seek. rewrite (h_seek e Hhealthy).
    cbn [orfail ret]. rewrite add_small by (int64_range; lia).
    eexists. split; [cbn [total fold_right]; rewrite Z.add_0_r; reflexivity|].
    cbn [pos trace total fold_right].
    rewrite write_sizes_app, seek_offsets_app, device_ops_app. cbn.
    rewrite app_nil_r. repeat split; lia.
  - eexists. split; [cbn; rewrite Z.add_0_r; reflexivity|].
    cbn. rewrite !app_nil_r. repeat split; lia.
Qed.

Lemma wipe_progress_spec s w :
  exists s' w',
    wipe_progress e size skipFactor s w = Ret (s', w') /\
    bytesWritten s' = bytesWritten s /\
    bytesProcessed s' = bytesProcessed s /\
    pos w' = pos w /\
    write_sizes (trace w') = write_sizes (trace w) /\
    seek_offsets (trace w') = seek_offsets (trace w) /\
    device_ops (trace w') = device_ops (trace w).
Proof.
  unfold wipe_progress, bind, time_Now.
  destruct (updateInterval <=? _).
  - destruct (progress_update _ _ _ _) as [line s'] eqn:E.
    pose proof (progress_update_counters size skipFactor
                  (clock e (n_clock w)) s) as [Hw Hp].
    rewrite E in Hw, Hp. cbn [snd] in Hw, Hp.
    unfold print, emit, ret. do 2 eexists. split; [reflexivity|].
    cbn [pos trace].
    rewrite write_sizes_app, seek_offsets_app, device_ops_app. cbn.
    rewrite !app_nil_r. repeat split; assumption.
  - unfold ret. do 2 eexists. split; [reflexivity|].
    cbn [pos trace]. repeat split; reflexivity.
Qed.

Lemma wipe_iter_spec s w :
  counters_ok size bufferSize skipFactor s ->
  bytesProcessed s < size ->
  let ws := spec_writeSize size bufferSize (bytesProcessed s) in
  let p1 := bytesProcessed s + ws in
  let sk := if (1 <? skipFactor) && (p1 <? size)
            then [spec_skipSize size bufferSize skipFactor p1] else [] in
  exists s' w',
    wipe_iter e size bufferSize skipFactor buffer s w = Ret (s', w') /\
    bytesWritten s' = bytesWritten s + ws /\
    bytesProcessed s' = p1 + total sk /\
    write_sizes (trace w') = write_sizes (trace w) ++ [ws] /\
    seek_offsets (trace w') = seek_offsets (trace w) ++ sk /\
    pos w' = pos w + ws + total sk /\
    device_ops (trace w')
      = device_ops (trace w)
        ++ EvWrite ws ws :: map (fun d => EvSeek d SeekCurrent) sk.
Proof.
  intros (Hw & Hp & Hr & Hhead) Hlt ws p1 sk.
  assert (Hws : 0 < ws <= bufferSize /\ ws <= size - bytesProcessed s)
    by (subst ws; unfold spec_writeSize; lia).
  unfold wipe_iter.
  erewrite bind_Ret by (apply wipe_write_spec; lia).
  cbv beta zeta. fold ws.
  rewrite !add_small by (int64_range; lia). fold p1.
  match goal with |- context [bind _ _ ?w1] =>
    destruct (wipe_skip_spec p1 w1 ltac:(lia))
      as (w2 & Hrun & Hpos & Hwr & Hsk & Hops)
  end.
  fold sk in Hrun, Hpos, Hsk, Hops.
  erewrite bind_Ret by exact Hrun.
  match goal with |- context [wipe_progress _ _ _ ?s1 _] =>
    destruct (wipe_progress_spec s1 w2)
      as (s' & w' & Hrun' & Hbw & Hbp & Hpos' & Hwr' & Hsk' & Hops')
  end.
  exists s', w'. split; [exact Hrun'|].
  cbn [bytesWritten bytesProcessed] in Hbw, Hbp.
  cbn [pos trace] in Hpos, Hwr, Hsk, Hops.
  rewrite write_sizes_app in Hwr. cbn in Hwr.
  rewrite seek_offsets_app in Hsk. cbn in Hsk. rewrite app_nil_r in Hsk.
  rewrite device_ops_app in Hops.
  change (device_ops [EvWrite ws ws]) with [EvWrite ws ws] in Hops.
  rewrite <- app_assoc in Hops.
  split; [lia|]. split; [lia|]. split; [congruence|]. split; [congruence|].
  split; [lia|]. rewrite Hops', Hops. reflexivity.
Qed.

Lemma counters_step s bw' bp' :
  counters_ok size bufferSize skipFactor s ->
  bytesProcessed s < size ->
  let ws := spec_writeSize size bufferSize (bytesProcessed s) in
  let p1 := bytesProcessed s + ws in
  let sk := if (1 <? skipFactor) && (p1 <? size)
            then [spec_skipSize size bufferSize skipFactor p1] else [] in
  bw' = bytesWritten s + ws ->
  bp' = p1 + total sk ->
  forall t u v,
    counters_ok size bufferSize skipFactor (mkWipe bw' bp' t u v) /\
    bytesProcessed s < bp'.
Proof.
  intros (Hw & Hp & Hr & Hhead) Hlt ws p1 sk -> -> t u v.
  specialize (Hhead Hlt).
  assert (Hws : 0 < ws <= bufferSize /\ ws <= size - bytesProcessed s /\
                (ws = bufferSize \/ ws = size - bytesProcessed s))
    by (subst ws; unfold spec_writeSize; lia).
  unfold counters_ok. cbn [bytesWritten bytesProcessed].
  subst sk. destruct ((1 <? skipFactor) && (p1 <? size)) eqn:E.
  - apply andb_true_iff in E. destruct E as [Hk Hlt1].
    apply Z.ltb_lt in Hk. apply Z.ltb_lt in Hlt1.
    cbn [total fold_right]. unfold spec_skipSize.
    assert (ws = bufferSize) by lia.
    destruct (Z.min_spec (bufferSize * (skipFactor - 1)) (size - p1))
      as [[? ->]|[? ->]]; subst p1; repeat split; nia.
  - apply andb_false_iff in E. cbn [total fold_right].
    destruct E as [E|E]; [apply Z.ltb_ge in E | apply Z.ltb_ge in E].
    + assert (skipFactor = 1) by lia. subst p1. repeat split; nia.
    + subst p1. repeat split; nia.
Qed.

Lemma wipe_loop_spec fuel : forall s w,
  counters_ok size bufferSize skipFactor s ->
  (Z.to_nat (size - bytesProcessed s) <= fuel)%nat ->
  exists s' w',
    wipe_loop e size bufferSize skipFactor buffer fuel s w = Ret (s', w') /\
    bytesProcessed s' = size /\
    counters_ok size bufferSize skipFactor s' /\
    total (write_sizes (trace w'))
      = total (write_sizes (trace w)) + (bytesWritten s' - bytesWritten s) /\
    total (seek_offsets (trace w'))
      = total (seek_offsets (trace w))
        + (bytesProcessed s' - bytesProcessed s)
        - (bytesWritten s' - bytesWritten s) /\
    (skipFactor = 1 -> seek_offsets (trace w') = seek_offsets (trace w)) /\
    pos w' = pos w + (bytesProcessed s' - bytesProcessed s) /\
    device_ops (trace w')
      = device_ops (trace w)
        ++ expected_ops fuel size bufferSize skipFactor (bytesProcessed s).
Proof.
  induction fuel as [|fuel IH]; intros s w Hc Hfuel.
  - assert (bytesProcessed s = size) by (destruct Hc as (_ & ? & _); lia).
    cbn [wipe_loop]. destruct (Z.ltb_spec (bytesProcessed s) size); [lia|].
    exists s, w. split; [reflexivity|]. split; [assumption|].
    split; [exact Hc|]. split; [lia|]. split; [lia|].
    split; [reflexivity|]. split; [lia|].
    cbn [expected_ops]. symmetry. apply app_nil_r.
  - cbn [wipe_loop expected_ops].
    destruct (Z.ltb_spec (bytesProcessed s) size) as [Hlt|Hge].
    + destruct (wipe_iter_spec s w Hc Hlt)
        as (s1 & w1 & Hrun & Hbw & Hbp & Hwr & Hsk & Hpos & Hops).
      erewrite bind_Ret by exact Hrun.
      destruct (counters_step s _ _ Hc Hlt Hbw Hbp (lastUpdateTime s1)
                  (lastUpdateBytes s1) (smoothedSpeed s1)) as [Hc1 Hgt].
      assert (Es1 : mkWipe (bytesWritten s1) (bytesProcessed s1)
                      (lastUpdateTime s1) (lastUpdateBytes s1)
                      (smoothedSpeed s1) = s1) by (destruct s1; reflexivity).
      rewrite Es1 in Hc1.
      destruct (IH s1 w1 Hc1 ltac:(lia))
        as (s' & w' & Hrun' & Hend & Hc' & Hwr' & Hsk' & Hone & Hpos' & Hops').
      exists s', w'. split; [exact Hrun'|].
      split; [assumption|]. split; [exact Hc'|].
      rewrite Hwr', Hsk', Hwr, Hsk, !total_app. cbn [total fold_right].
      split; [lia|]. split; [lia|]. split; [|split; [lia|]].
      * intros Hk. rewrite (Hone Hk), Hsk.
        replace (1 <? skipFactor) with false by (symmetry; apply Z.ltb_ge; lia).
        apply app_nil_r.
      * rewrite Hops', Hops, Hbp, <- app_assoc. reflexivity.
    + assert (bytesProcessed s = size) by (destruct Hc as (_ & ? & _); lia).
      exists s, w. split; [reflexivity|]. split; [assumption|].
      split; [exact Hc|]. split; [lia|]. split; [lia|].
      split; [reflexivity|]. split; [lia|].
      symmetry. apply app_nil_r.
Qed.

End WipeLoop.

(** ** [wipeDevice] as a whole *)

Lemma open_device_healthy e w :
  healthy e ->
  exists w',
    open_device e w = Ret (tt, w') /\
    pos w' = pos w /\
    write_sizes (trace w') = write_sizes (trace w) /\
    seek_offsets (trace w') = seek_offsets (trace w) /\
    device_ops (trace w') = device_ops (trace w).
Proof.
  intros H. unfold open_device.
  destruct (open_direct e) eqn:Ed.
  - exists w. repeat split; reflexivity.
  - destruct (h_open e H) as [E|E]; [congruence|].
    unfold bind, print, emit. rewrite E. unfold ret.
    eexists. split; [reflexivity|]. cbn [pos trace].
    rewrite write_sizes_app, seek_offsets_app, device_ops_app. cbn.
    rewrite !app_nil_r. repeat split; reflexivity.
Qed.

(** The end of [wipeDevice], from the summary on: whatever [Sync] answers,
    the function returns nil. *)
Lemma wipe_epilogue e size skipFactor startTime s w :
  exists w' totalTime,
    (totalTime <- time_Since e startTime ;;
     print (summary size skipFactor totalTime s) ;;;
     ok <- file_Sync e ;;
     (if ok then ret tt else print WarnFinalSync) ;;;
     ret s) w = Ret (s, w') /\
    pos w' = pos w /\
    write_sizes (trace w') = write_sizes (trace w) /\
    seek_offsets (trace w') = seek_offsets (trace w) /\
    device_ops (trace w') = device_ops (trace w) /\
    messages (trace w') =
      messages (trace w) ++
      summary size skipFactor totalTime s
      :: (if file_sync e then [] else [WarnFinalSync]).
Proof.
  unfold bind, time_Since, time_Now, bind, ret, print, file_Sync, emit, bind, ret.
  cbn [pos n_rand n_write n_seek n_clock trace].
  destruct (file_sync e); cbn [pos n_rand n_write n_seek n_clock trace];
    do 2 eexists; (split; [reflexivity|]); cbn [pos trace];
    rewrite ?write_sizes_app, ?seek_offsets_app, ?messages_app,
      ?device_ops_app; cbn;
    rewrite ?app_nil_r, <- ?app_assoc; repeat split; reflexivity.
Qed.

Section WipeDevice.

Variable e : env.
Variables size bufferSize skipFactor : Z.
Variable buffer : slice.

Hypothesis Hhealthy : healthy e.
Hypothesis Hsize : 0 < size <= Int64.max_int.
Hypothesis Hbuf : 0 < bufferSize <= Int64.max_int.
Hypothesis Hskip : 1 <= skipFactor <= Int64.max_int.
Hypothesis Hno : no_overflow size bufferSize skipFactor.
Hypothesis Halloc :
  allocAlignedBuffer (heap_addr e) (alignedBufferSize bufferSize) = Ret buffer.
Hypothesis Hcap : Z.min bufferSize size <= s_cap buffer.

Lemma wipeDevice_spec fuel w0 :
  (Z.to_nat size <= fuel)%nat ->
  exists s w totalTime,
    wipeDevice e fuel size bufferSize skipFactor w0 = Ret (s, w) /\
    bytesProcessed s = size /\
    counters_ok size bufferSize skipFactor s /\
    total (write_sizes (trace w))
      = total (write_sizes (trace w0)) + bytesWritten s /\
    total (seek_offsets (trace w))
      = total (seek_offsets (trace w0)) + (size - bytesWritten s) /\
    (skipFactor = 1 -> seek_offsets (trace w) = seek_offsets (trace w0)) /\
    pos w = pos w0 + size /\
    device_ops (trace w)
      = device_ops (trace w0)
        ++ expected_ops fuel size bufferSize skipFactor 0 /\
    exists before,
      messages (trace w) =
        before ++ summary size skipFactor totalTime s
        :: (if file_sync e then [] else [WarnFinalSync]).
Proof.
  intros Hfuel.
  destruct (open_device_healthy e w0 Hhealthy)
    as (w1 & Hopen & Hp1 & Hw1 & Hs1 & Ho1).
  set (s0 := mkWipe 0 0 (clock e (n_clock w1)) 0 0%float).
  set (w2 := mkWorld (pos w1) (n_rand w1) (n_write w1) (n_seek w1)
                     (S (n_clock w1)) (trace w1)).
  destruct (wipe_loop_spec e size bufferSize skipFactor buffer Hhealthy
              Hsize Hbuf Hskip Hno Hcap fuel s0 w2)
    as (s & w3 & Hloop & Hend & Hc & Hwr & Hsk & Hone & Hpos & Hops).
  { unfold counters_ok. cbn [s0 bytesWritten bytesProcessed].
    repeat split; nia. }
  { cbn [s0 bytesProcessed]. rewrite Z.sub_0_r. exact Hfuel. }
  assert (Hpass : wipe_pass e fuel size bufferSize skipFactor w0
                  = Ret ((clock e (n_clock w1), s), w3)).
  { unfold wipe_pass. erewrite bind_Ret by exact Hopen. rewrite Halloc.
    erewrite bind_Ret by reflexivity.
    erewrite bind_Ret by reflexivity.
    erewrite bind_Ret by exact Hloop. reflexivity. }
  unfold wipeDevice. erewrite bind_Ret by exact Hpass. cbv iota beta.
  destruct (wipe_epilogue e size skipFactor (clock e (n_clock w1)) s w3)
    as (w & totalTime & Hepi & Hp & Hw & Hs & Ho & Hm).
  exists s, w, totalTime. split; [exact Hepi|].
  clear Hpass Hloop. subst s0 w2.
  cbn [pos trace bytesWritten bytesProcessed] in *.
  split; [assumption|]. split; [assumption|].
  rewrite Hw, Hs, Hwr, Hsk, Hw1, Hs1, Hp, Hpos, Hp1, Hend.
  split; [lia|]. split; [lia|].
  split; [intros Hk; rewrite (Hone Hk); assumption|].
  split; [lia|]. split; [rewrite Ho, Hops, Ho1; reflexivity|].
  eexists. exact Hm.
Qed.

End WipeDevice.

(** C1: for every [size > 0] and [bufferSize > 0], on a system where nothing
    fails and every write statement of the loop succeeds (the slice
    [buffer[:writeSize]] is in range and [Write] returns the requested
    count), a wipe with [skipFactor = 1] returns with
    [bytesWritten = bytesProcessed = size], and the sizes of the writes it
    issued add up to [size]. *)
Theorem wipe_full (e : env) (size bufferSize : Z) (buffer : slice) (fuel : nat) :
  healthy e ->
  0 < size <= Int64.max_int ->
  0 < bufferSize <= Int64.max_int ->
  allocAlignedBuffer (heap_addr e) (alignedBufferSize bufferSize) = Ret buffer ->
  Z.min bufferSize size <= s_cap buffer ->
  (Z.to_nat size <= fuel)%nat ->
  exists s w,
    wipeDevice e fuel size bufferSize 1 fresh = Ret (s, w) /\
    bytesWritten s = size /\
    bytesProcessed s = size /\
    total (write_sizes (trace w)) = size /\
    seek_offsets (trace w) = [].
Proof.
  intros Hh Hs Hb Ha Hc Hf.
  destruct (wipeDevice_spec e size bufferSize 1 buffer Hh Hs Hb
              ltac:(unfold Int64.max_int; lia) (or_introl eq_refl) Ha Hc
              fuel fresh Hf)
    as (s & w & t & Hrun & Hend & Hcnt & Hwr & _ & Hone & _).
  exists s, w. split; [exact Hrun|].
  destruct Hcnt as (? & ? & ? & _).
  assert (bytesWritten s = size) by lia.
  split; [assumption|]. split; [assumption|].
  split; [cbn in Hwr; lia|]. exact (Hone eq_refl).
Qed.

Lemma steady_healthy addr deviceSize tick : healthy (steady addr deviceSize tick).
Proof. split; cbn; auto. Qed.

(** ** Overflow of the skip size *)

(** With the default 4 MiB buffer and [skipFactor = 2^42], the product
    [int64(bufferSize) * int64(skipFactor-1)] is [2^64 - 2^22], which wraps
    to [-bufferSize]: each turn seeks back to where it started. *)
Lemma runaway_skipSize :
  wipe_skipSize 8388608 4194304 4398046511104 4194304 = - 4194304.
Proof. reflexivity. Qed.

Section Runaway.

Variable e : env.
Variable buffer : slice.
Hypothesis Hhealthy : healthy e.
Hypothesis Hcap : 4194304 <= s_cap buffer.

Lemma runaway_iter s w :
  bytesProcessed s = 0 ->
  exists s' w',
    wipe_iter e 8388608 4194304 4398046511104 buffer s w = Ret (s', w') /\
    bytesProcessed s' = 0 /\ pos w' = pos w.
Proof.
  intros Hz. unfold wipe_iter.
  erewrite bind_Ret
    by (apply (wipe_write_spec e 8388608 4194304 buffer Hhealthy);
        unfold Int64.max_int; lia).
  cbv beta zeta. rewrite Hz.
  change (spec_writeSize 8388608 4194304 0) with 4194304.
  change (Int64.add 0 4194304) with 4194304.
  unfold wipe_skip.
  change ((1 <? 4398046511104) && (4194304 <? 8388608)) with true.
  cbv iota. rewrite runaway_skipSize.
  change (Int64.add 4194304 (- 4194304)) with 0.
  erewrite bind_Ret
    by (unfold bind, file_Seek; rewrite (h_seek e Hhealthy); reflexivity).
  match goal with |- context [wipe_progress _ _ _ ?s1 ?w1] =>
    destruct (wipe_progress_spec e 8388608 4398046511104 s1 w1)
      as (s' & w' & Hrun & _ & Hbp & Hpos & _)
  end.
  exists s', w'. split; [exact Hrun|].
  cbn [bytesProcessed pos] in *. split; [assumption|lia].
Qed.

Lemma runaway_loop fuel : forall s w,
  bytesProcessed s = 0 ->
  wipe_loop e 8388608 4194304 4398046511104 buffer fuel s w = OutOfFuel.
Proof.
  induction fuel as [|fuel IH]; intros s w Hz; cbn [wipe_loop]; rewrite Hz.
  - reflexivity.
  - change (0 <? 8388608) with true. cbv iota.
    destruct (runaway_iter s w Hz) as (s' & w' & Hrun & Hz' & _).
    erewrite bind_Ret by exact Hrun. apply IH. exact Hz'.
Qed.

End Runaway.

(** C2: at [size = 8388608], [bufferSize = 4194304],
    [skipFactor = 4398046511104], on any system where every write is whole
    and every seek succeeds, the skip size wraps to [-4194304];
    [bytesProcessed] is back at 0 after every turn, so the loop never
    reaches [size]: whatever the fuel, the run has not returned. *)
Theorem wipe_skip_overflow_never_ends (e : env) (fuel : nat) :
  healthy e ->
  0 <= heap_addr e <= Int64.max_int ->
  wipe_skipSize 8388608 4194304 4398046511104 4194304 = - 4194304 /\
  wipeDevice e fuel 8388608 4194304 4398046511104 fresh = OutOfFuel.
Proof.
  intros Hh Ha. split; [reflexivity|].
  assert (Hpass : wipe_pass e fuel 8388608 4194304 4398046511104 fresh
                  = OutOfFuel).
  { unfold wipe_pass.
    destruct (open_device_healthy e fresh Hh) as (w1 & Hopen & _).
    erewrite bind_Ret by exact Hopen.
    change (alignedBufferSize 4194304) with 4194304.
    rewrite allocAlignedBuffer_spec by (unfold Int64.max_int in *; lia).
    erewrite bind_Ret by reflexivity.
    erewrite bind_Ret by reflexivity.
    unfold bind.
    rewrite runaway_loop; [reflexivity | exact Hh | | reflexivity].
    cbn [s_cap].
    pose proof (Z.mod_pos_bound (4096 - heap_addr e mod 4096) 4096). lia. }
  unfold wipeDevice, bind. rewrite Hpass. reflexivity.
Qed.

Lemma wipe_skip_overflow_never_ends_witness :
  healthy (steady page 8388608 1000000000) /\
  0 <= heap_addr (steady page 8388608 1000000000) <= Int64.max_int /\
  wipe_skipSize 8388608 4194304 4398046511104 4194304 = - 4194304 /\
  wipeDevice (steady page 8388608 1000000000) 1000 8388608 4194304
             4398046511104 fresh = OutOfFuel.
Proof.
  assert (Ha : 0 <= heap_addr (steady page 8388608 1000000000)
               <= Int64.max_int) by (vm_compute; split; discriminate).
  split; [apply steady_healthy|]. split; [exact Ha|].
  exact (wipe_skip_overflow_never_ends (steady page 8388608 1000000000) 1000
           (steady_healthy _ _ _) Ha).
Defined.

(** C3: at [size = 20480], [bufferSize = 12288],
    [skipFactor = 1501199875790166], with every write and every seek
    successful, [int64(bufferSize) * int64(skipFactor-1)] wraps to [-4096]:
    the pass writes 12288 bytes, seeks 4096 bytes back and writes 12288
    bytes again, and returns with [bytesProcessed = size = 20480] but
    [bytesWritten = 24576], more than the bytes processed and a buffer and
    more away from [size / skipFactor = 0]. *)
Theorem wipe_skip_overflow_overwrites :
  healthy (steady page 20480 0) /\
  wipe_skipSize 20480 12288 1501199875790166 12288 = - 4096 /\
  exists s w,
    wipeDevice (steady page 20480 0) 2 20480 12288 1501199875790166 fresh
    = Ret (s, w) /\
    bytesProcessed s = 20480 /\
    bytesWritten s = 24576 /\
    device_ops (trace w)
    = [EvWrite 12288 12288; EvSeek (- 4096) SeekCurrent; EvWrite 12288 12288] /\
    pos w = 20480 /\
    20480 / 1501199875790166 = 0.
Proof.
  split; [apply steady_healthy|]. split; [reflexivity|].
  do 2 eexists. split; [vm_compute; reflexivity|].
  repeat split; reflexivity.
Qed.

(** Without overflow a sampled pass ends with
    [bytesWritten <= bytesProcessed = size] and [bytesWritten] within one
    buffer of [size / skipFactor]. *)
Lemma wipe_sampled (e : env) (size bufferSize skipFactor : Z) (buffer : slice)
      (fuel : nat) :
  healthy e ->
  0 < size <= Int64.max_int ->
  0 < bufferSize <= Int64.max_int ->
  1 <= skipFactor <= Int64.max_int ->
  no_overflow size bufferSize skipFactor ->
  allocAlignedBuffer (heap_addr e) (alignedBufferSize bufferSize) = Ret buffer ->
  Z.min bufferSize size <= s_cap buffer ->
  (Z.to_nat size <= fuel)%nat ->
  exists s w,
    wipeDevice e fuel size bufferSize skipFactor fresh = Ret (s, w) /\
    bytesProcessed s = size /\
    bytesWritten s <= bytesProcessed s /\
    size / skipFactor <= bytesWritten s <= size / skipFactor + bufferSize /\
    device_ops (trace w) = expected_ops fuel size bufferSize skipFactor 0.
Proof.
  intros Hh Hs Hb Hk Hno Ha Hc Hf.
  destruct (wipeDevice_spec e size bufferSize skipFactor buffer Hh Hs Hb Hk
              Hno Ha Hc fuel fresh Hf)
    as (s & w & t & Hrun & Hend & Hcnt & _ & _ & _ & _ & Hops & _).
  exists s, w. split; [exact Hrun|]. split; [exact Hend|].
  destruct Hcnt as (Hw & _ & Hr & _). rewrite Hend in *.
  split; [lia|]. split; [|exact Hops].
  pose proof (Z.div_mod size skipFactor ltac:(lia)) as Hdm.
  pose proof (Z.mod_pos_bound size skipFactor ltac:(lia)) as Hmb.
  split.
  - apply Z.div_le_upper_bound; lia.
  - assert (skipFactor * bytesWritten s
            < skipFactor * (size / skipFactor + bufferSize + 1)) by nia.
    assert (bytesWritten s < size / skipFactor + bufferSize + 1) by nia.
    lia.
Qed.

Lemma write_sizes_device_ops t : write_sizes t = write_sizes (device_ops t).
Proof.
  induction t as [|ev t IH]; [reflexivity|].
  destruct ev; cbn; fold (write_sizes t); fold (device_ops t);
    fold (write_sizes (device_ops t)); rewrite <- ?IH; reflexivity.
Qed.

Lemma alloc_one_page addr :
  0 <= addr <= Int64.max_int ->
  exists b,
    allocAlignedBuffer addr (alignedBufferSize 4096) = Ret b /\
    4096 <= s_cap b.
Proof.
  intros Ha. change (alignedBufferSize 4096) with 4096.
  rewrite allocAlignedBuffer_spec by (unfold Int64.max_int in *; lia).
  eexists. split; [reflexivity|]. cbn [s_cap].
  pose proof (Z.mod_pos_bound (4096 - addr mod 4096) 4096). lia.
Qed.

(** The second scenario of the specification: 100000 bytes, 4096-byte
    buffer, [skipFactor = 5]. *)
Lemma wipe_100000 (e : env) (fuel : nat) :
  healthy e ->
  0 <= heap_addr e <= Int64.max_int ->
  (Z.to_nat 100000 <= fuel)%nat ->
  exists s w,
    wipeDevice e fuel 100000 4096 5 fresh = Ret (s, w) /\
    device_ops (trace w)
    = [EvWrite 4096 4096; EvSeek 16384 SeekCurrent;
       EvWrite 4096 4096; EvSeek 16384 SeekCurrent;
       EvWrite 4096 4096; EvSeek 16384 SeekCurrent;
       EvWrite 4096 4096; EvSeek 16384 SeekCurrent;
       EvWrite 4096 4096; EvSeek 13984 SeekCurrent] /\
    bytesProcessed s = 100000 /\
    bytesWritten s = 20480 /\
    Z.abs (bytesWritten s - 100000 / 5) <= 4096.
Proof.
  intros Hh Ha Hf.
  destruct (alloc_one_page (heap_addr e) Ha) as (b & Hb & Hcap).
  destruct (wipeDevice_spec e 100000 4096 5 b Hh
              ltac:(unfold Int64.max_int; lia) ltac:(unfold Int64.max_int; lia)
              ltac:(unfold Int64.max_int; lia)
              ltac:(right; unfold Int64.max_int; lia) Hb ltac:(lia)
              fuel fresh ltac:(lia))
    as (s & w & t & Hrun & Hend & Hcnt & Hwr & _ & _ & _ & Hops & _).
  exists s, w. split; [exact Hrun|].
  assert (Hexp : expected_ops fuel 100000 4096 5 0
                 = [EvWrite 4096 4096; EvSeek 16384 SeekCurrent;
                    EvWrite 4096 4096; EvSeek 16384 SeekCurrent;
                    EvWrite 4096 4096; EvSeek 16384 SeekCurrent;
                    EvWrite 4096 4096; EvSeek 16384 SeekCurrent;
                    EvWrite 4096 4096; EvSeek 13984 SeekCurrent]).
  { do 6 (destruct fuel as [|fuel]; [lia|]). reflexivity. }
  rewrite Hexp in Hops. cbn [fresh trace device_ops flat_map app] in Hops.
  split; [exact Hops|]. split; [exact Hend|].
  assert (Hbw : bytesWritten s = 20480).
  { change (total (write_sizes (trace fresh))) with 0 in Hwr.
    rewrite (write_sizes_device_ops (trace w)), Hops in Hwr.
    change (total _) with 20480 in Hwr. lia. }
  split; [exact Hbw|]. rewrite Hbw. cbn. lia.
Qed.

(** ** Slices of the buffer *)

(** C4: at [bufferSize = 5000] (and [size = 20000]) the buffer is 4096
    bytes long while the first turn of either loop slices
    [buffer[:5000]].  On a page-aligned array the slice reaches 904 bytes
    past the buffer's length into the slack of the allocation; on an array
    one byte off a page boundary the capacity is 4097 and the slice
    expression panics, in [wipeDevice] and in [benchmarkWriteSpeed]. *)
Theorem write_slice_exceeds_buffer :
  alignedBufferSize 5000 = 4096 /\
  wipe_writeSize 20000 5000 (mkWipe 0 0 0 0 0) = 5000 /\
  (exists b,
     allocAlignedBuffer page (alignedBufferSize 5000) = Ret b /\
     s_len b = 4096 /\
     reslice b 0 5000 = Ret (mkSlice page 5000 8192)) /\
  (exists b,
     allocAlignedBuffer off_page (alignedBufferSize 5000) = Ret b /\
     s_len b = 4096 /\ s_cap b = 4097 /\
     reslice b 0 5000 = Panic) /\
  wipeDevice (steady off_page 20000 0) 4 20000 5000 1 fresh = Panic /\
  benchmarkWriteSpeed (steady off_page 20000 0) 5000 2 fresh = Panic.
Proof.
  split; [reflexivity|]. split; [reflexivity|].
  split; [eexists; split; [reflexivity|split; reflexivity]|].
  split; [eexists; split; [reflexivity|repeat split; reflexivity]|].
  split; reflexivity.
Qed.

(** When [bufferSize] is a multiple of 4096 the write size never exceeds
    the length of the buffer. *)
Lemma write_slice_within_buffer (size bufferSize : Z) (s : wipe_state) :
  0 < bufferSize <= Int64.max_int ->
  bufferSize mod 4096 = 0 ->
  0 < size <= Int64.max_int ->
  0 <= bytesProcessed s < size ->
  0 < wipe_writeSize size bufferSize s <= alignedBufferSize bufferSize.
Proof.
  intros Hb Hm Hs Hp.
  assert (Heq : alignedBufferSize bufferSize = bufferSize).
  { pose proof (Z.div_mod bufferSize 4096 ltac:(lia)).
    rewrite alignedBufferSize_large; lia. }
  rewrite Heq, wipe_writeSize_spec by lia.
  unfold spec_writeSize. lia.
Qed.

(** ** The first scenario *)

(** C6 as the code has it: 20000 bytes with a 4096-byte buffer and
    [skipFactor = 1] are written as four writes of 4096 bytes and one of
    3616 bytes (not 3264), nothing is skipped,
    [bytesWritten = bytesProcessed = 20000], which is 100% of the device;
    the summary carries no overwritten share, which is printed only when
    [skipFactor > 1]. *)
Theorem wipe_20000 (e : env) (fuel : nat) :
  healthy e ->
  0 <= heap_addr e <= Int64.max_int ->
  (Z.to_nat 20000 <= fuel)%nat ->
  exists s w totalTime averageSpeed before after,
    wipeDevice e fuel 20000 4096 1 fresh = Ret (s, w) /\
    device_ops (trace w)
    = [EvWrite 4096 4096; EvWrite 4096 4096; EvWrite 4096 4096;
       EvWrite 4096 4096; EvWrite 3616 3616] /\
    4096 * 4 + 3616 = 20000 /\
    bytesWritten s = 20000 /\
    bytesProcessed s = 20000 /\
    (float64_of_int64 (bytesWritten s) / float64_of_int64 20000 * 100
     = 100)%float /\
    messages (trace w)
    = before ++ Summary 20000 totalTime averageSpeed None :: after.
Proof.
  intros Hh Ha Hf.
  destruct (alloc_one_page (heap_addr e) Ha) as (b & Hb & Hcap).
  destruct (wipeDevice_spec e 20000 4096 1 b Hh
              ltac:(unfold Int64.max_int; lia) ltac:(unfold Int64.max_int; lia)
              ltac:(unfold Int64.max_int; lia)
              (or_introl eq_refl) Hb ltac:(lia) fuel fresh Hf)
    as (s & w & t & Hrun & Hend & Hcnt & _ & _ & _ & _ & Hops & before & Hm).
  assert (Hbw : bytesWritten s = 20000)
    by (destruct Hcnt as (? & ? & ? & _); lia).
  exists s, w, t. do 3 eexists. split; [exact Hrun|].
  split.
  { rewrite Hops. do 6 (destruct fuel as [|fuel]; [lia|]). reflexivity. }
  split; [reflexivity|]. split; [exact Hbw|]. split; [exact Hend|].
  split; [rewrite Hbw; reflexivity|].
  rewrite Hm. unfold summary. rewrite Hend.
  change (1 <? 1) with false. cbv iota. reflexivity.
Qed.

Lemma wipe_20000_witness :
  healthy small_device /\
  0 <= heap_addr small_device <= Int64.max_int /\
  (Z.to_nat 20000 <= Z.to_nat 20000)%nat /\
  exists s w totalTime averageSpeed before after,
    wipeDevice small_device (Z.to_nat 20000) 20000 4096 1 fresh
    = Ret (s, w) /\
    device_ops (trace w)
    = [EvWrite 4096 4096; EvWrite 4096 4096; EvWrite 4096 4096;
       EvWrite 4096 4096; EvWrite 3616 3616] /\
    4096 * 4 + 3616 = 20000 /\
    bytesWritten s = 20000 /\
    bytesProcessed s = 20000 /\
    (float64_of_int64 (bytesWritten s) / float64_of_int64 20000 * 100
     = 100)%float /\
    messages (trace w)
    = before ++ Summary 20000 totalTime averageSpeed None :: after.
Proof.
  assert (Ha : 0 <= heap_addr small_device <= Int64.max_int)
    by (vm_compute; split; discriminate).
  split; [apply steady_healthy|]. split; [exact Ha|]. split; [lia|].
  apply (wipe_20000 small_device (Z.to_nat 20000)
           (steady_healthy _ _ _ : healthy small_device) Ha).
  lia.
Defined.

(** The run of the first scenario on a steady system: the last write is
    3616 bytes long, not 3264, and the only line printed is a summary
    without an overwritten share. *)
Lemma scenario_last_write_is_3616 :
  exists s w totalTime averageSpeed,
    wipeDevice small_device 5 20000 4096 1 fresh = Ret (s, w) /\
    write_sizes (trace w) = [4096; 4096; 4096; 4096; 3616] /\
    write_sizes (trace w) <> [4096; 4096; 4096; 4096; 3264] /\
    4096 * 4 + 3264 <> 20000 /\
    messages (trace w) = [Summary 20000 totalTime averageSpeed None].
Proof.
  do 4 eexists. split; [vm_compute; reflexivity|].
  split; [reflexivity|]. split; [discriminate|].
  split; [discriminate|reflexivity].
Qed.

(** ** Speed and ETA *)



(** C5 as the code has it: a progress block always completes; it either
    prints nothing and leaves the locals alone, or prints one line whose ETA
    is the quotient [float64(size - bytesProcessed) / smoothedSpeed] of the
    smoothed speed it has just updated; no case tests that speed for zero
    and no line stands for an unknown ETA. *)
Theorem eta_unguarded (e : env) (size skipFactor : Z) (s : wipe_state)
      (w : world) :
  exists s' w',
    wipe_progress e size skipFactor s w = Ret (s', w') /\
    ((s' = s /\ messages (trace w') = messages (trace w)) \/
     (exists pct instant cov,
        smoothedSpeed s' = smooth (smoothedSpeed s) instant /\
        messages (trace w')
        = messages (trace w)
          ++ [Progress pct (bytesProcessed s) size instant
                (float64_of_int64 (Int64.sub size (bytesProcessed s))
                 / smoothedSpeed s')%float
                cov])).
Proof.
  unfold wipe_progress, bind, time_Now.
  destruct (updateInterval <=? _).
  - unfold progress_update, print, emit, ret.
    do 2 eexists. split; [reflexivity|]. right. do 3 eexists.
    cbn [smoothedSpeed trace]. rewrite messages_app.
    split; reflexivity.
  - unfold ret. do 2 eexists. split; [reflexivity|]. left.
    split; reflexivity.
Qed.

(** The first turn of a pass with the default 4 MiB buffer and
    [skipFactor = 2^42] on an 8 MiB device, on a clock that advances one
    second per reading: the skip size wraps to [-4194304], no byte is gained, the
    smoothed speed is zero, and the ETA printed is the quotient
    [8388608 / 0], infinity. *)
Lemma eta_division_by_zero :
  allocAlignedBuffer page (alignedBufferSize 4194304)
  = Ret (mkSlice page 4194304 4198400) /\
  exists s' w',
    wipe_iter (steady page 8388608 1000000000) 8388608 4194304 4398046511104
      (mkSlice page 4194304 4198400) (mkWipe 0 0 0 0 0)
      (mkWorld 0 0 0 0 1 []) = Ret (s', w') /\
    smoothedSpeed s' = 0%float /\
    messages (trace w')
    = [Progress 0 0 8388608 0 infinity (Some 50%float)] /\
    (float64_of_int64 (Int64.sub 8388608 0) / smoothedSpeed s'
     = infinity)%float.
Proof.
  split; [reflexivity|].
  do 2 eexists. split; [vm_compute; reflexivity|].
  repeat split; reflexivity.
Qed.

(** ** The final sync *)

(** C7 as the code has it: once the wipe loop has processed all bytes,
    [wipeDevice] returns nil whatever [Sync] answers, a failed sync adding
    only the warning after the summary; in [benchmarkWriteSpeed] a sync that
    fails after the offset was restored makes the function return the error
    "benchmark sync failed". *)
Theorem sync_failure_handling (e : env) (fuel : nat)
      (size bufferSize skipFactor : Z) (w0 : world) :
  (forall startTime s w1,
     wipe_pass e fuel size bufferSize skipFactor w0 = Ret ((startTime, s), w1) ->
     exists w totalTime,
       wipeDevice e fuel size bufferSize skipFactor w0 = Ret (s, w) /\
       messages (trace w)
       = messages (trace w1)
         ++ summary size skipFactor totalTime s
         :: (if file_sync e then [] else [WarnFinalSync])) /\
  (forall x w1,
     benchmark_writes e bufferSize fuel w0 = Ret (x, w1) ->
     file_seek e (n_seek w1) = true ->
     file_sync e = false ->
     benchmarkWriteSpeed e bufferSize fuel w0 = Fail ErrBenchSync).
Proof.
  split.
  - intros startTime s w1 Hpass.
    destruct (wipe_epilogue e size skipFactor startTime s w1)
      as (w & totalTime & Hepi & _ & _ & _ & _ & Hm).
    exists w, totalTime. split; [|exact Hm].
    unfold wipeDevice. erewrite bind_Ret by exact Hpass. exact Hepi.
  - intros [[originalPos startTime] written] w1 Hwrites Hseek Hsync.
    unfold benchmarkWriteSpeed. erewrite bind_Ret by exact Hwrites.
    unfold bind, file_Seek, file_Sync, bind, emit, ret.
    rewrite Hseek. cbn [orfail ret]. rewrite Hsync. reflexivity.
Qed.

Lemma sync_failure_handling_witness :
  (exists startTime s w1 w totalTime,
     wipe_pass small_device_sync_fails 5 20000 4096 1 fresh
     = Ret ((startTime, s), w1) /\
     wipeDevice small_device_sync_fails 5 20000 4096 1 fresh
     = Ret (s, w) /\
     messages (trace w)
     = messages (trace w1)
       ++ summary 20000 1 totalTime s
       :: (if file_sync small_device_sync_fails
           then [] else [WarnFinalSync])) /\
  (exists x w1,
     benchmark_writes small_device_sync_fails 4096 5 fresh
     = Ret (x, w1) /\
     file_seek small_device_sync_fails (n_seek w1) = true /\
     file_sync small_device_sync_fails = false /\
     benchmarkWriteSpeed small_device_sync_fails 4096 5 fresh
     = Fail ErrBenchSync).
Proof.
  pose proof (sync_failure_handling small_device_sync_fails 5
                20000 4096 1 fresh) as [Hwipe Hbench].
  split.
  - do 3 eexists.
    assert (Hpass : wipe_pass small_device_sync_fails 5 20000 4096 1
                      fresh = Ret ((_, _), _)) by (vm_compute; reflexivity).
    destruct (Hwipe _ _ _ Hpass) as (w & totalTime & Hrun & Hm).
    exists w, totalTime. split; [exact Hpass|]. split; [exact Hrun|exact Hm].
  - do 2 eexists.
    assert (Hwrites : benchmark_writes small_device_sync_fails 4096 5
                        fresh = Ret (_, _)) by (vm_compute; reflexivity).
    split; [exact Hwrites|]. split; [reflexivity|]. split; [reflexivity|].
    apply (Hbench _ _ Hwrites); reflexivity.
Defined.

(** On a system where only [Sync] fails, the benchmark of a 20000-byte
    device returns an error, while the wipe returns nil. *)
Lemma benchmark_sync_failure_is_fatal :
  benchmarkWriteSpeed small_device_sync_fails 4096 5 fresh
  = Fail ErrBenchSync /\
  exists s w,
    wipeDevice small_device_sync_fails 5 20000 4096 1 fresh
    = Ret (s, w).
Proof.
  split; [reflexivity|]. do 2 eexists. vm_compute. reflexivity.
Qed.

Lemma wrap_in_range z : Int64.in_range (Int64.wrap z).
Proof.
  unfold Int64.in_range, Int64.wrap, Int64.min_int, Int64.max_int.
  pose proof (Z.mod_pos_bound (z + 2 ^ 63) (2 ^ 64)). lia.
Qed.

Lemma benchVolume_in_range bufferSize deviceSize :
  Int64.in_range (benchVolume bufferSize deviceSize).
Proof.
  unfold benchVolume.
  destruct (deviceSize <? _).
  - destruct (_ <? _); apply wrap_in_range.
  - unfold Int64.in_range, Int64.min_int, Int64.max_int. lia.
Qed.

Section BenchLoop.

Variable e : env.
Variable bufferSize : Z.
Variable buffer : slice.

Hypothesis Hhealthy : healthy e.
Hypothesis Hbuf : 0 < bufferSize <= Int64.max_int.
Hypothesis Hcap : bufferSize <= s_cap buffer.

Lemma bench_loop_spec fuel : forall benchSize written w,
  benchSize <= Int64.max_int ->
  0 <= written ->
  (Z.to_nat (benchSize - written) <= fuel)%nat ->
  exists w',
    bench_loop e bufferSize fuel benchSize buffer written w
    = Ret (Z.max written benchSize, w') /\
    pos w' = pos w + (Z.max written benchSize - written) /\
    total (write_sizes (trace w'))
    = total (write_sizes (trace w)) + (Z.max written benchSize - written) /\
    n_seek w' = n_seek w.
Proof.
  induction fuel as [|fuel IH]; intros benchSize written w Hmax Hw Hfuel.
  - cbn [bench_loop]. destruct (Z.ltb_spec written benchSize); [lia|].
    exists w. rewrite Z.max_l by lia. unfold ret.
    repeat split; try reflexivity; lia.
  - cbn [bench_loop]. destruct (Z.ltb_spec written benchSize) as [Hlt|Hge].
    + set (ws := Z.min bufferSize (benchSize - written)).
      assert (Hws : 0 < ws <= bufferSize /\ ws <= benchSize - written)
        by (subst ws; lia).
      unfold bind at 1, rand_Read. rewrite (h_rand e Hhealthy). cbn [negb].
      rewrite sub_small by (int64_range; lia).
      replace (if benchSize - written <? bufferSize
               then benchSize - written else bufferSize) with ws
        by (subst ws; destruct (Z.ltb_spec (benchSize - written) bufferSize);
            lia).
      unfold bind at 1, lift, reslice.
      destruct (Z.leb_spec 0 0); [|lia].
      destruct (Z.leb_spec 0 ws); [|lia].
      destruct (Z.leb_spec ws (s_cap buffer)); [|lia].
      cbn [andb]. unfold bind at 1, file_Write. cbn [s_len n_write].
      rewrite (h_write e Hhealthy). replace (ws - 0) with ws by lia.
      unfold bind at 1. cbn [orfail]. unfold ret at 1.
      rewrite add_small by (int64_range; lia).
      unfold bind at 1, print, emit.
      cbn [pos n_rand n_write n_seek n_clock trace].
      match goal with |- context [bench_loop _ _ _ _ _ _ ?w1] =>
        destruct (IH benchSize (written + ws) w1 Hmax ltac:(lia) ltac:(lia))
          as (w' & Hrun & Hpos & Hwr & Hsk)
      end.
      exists w'. rewrite Hrun. cbn [pos trace n_seek] in Hpos, Hwr, Hsk.
      rewrite !write_sizes_app, !total_app in Hwr. cbn in Hwr.
      rewrite (Z.max_r written) by lia.
      rewrite (Z.max_r (written + ws)) in * by lia.
      repeat split; try reflexivity; lia.
    + exists w. rewrite Z.max_l by lia. unfold ret.
      repeat split; try reflexivity; lia.
Qed.

End BenchLoop.

(** On a steady system the benchmark returns a speed: it writes its whole
    volume and is back at the offset it started from. *)
Lemma benchmark_succeeds (e : env) (bufferSize deviceSize : Z) (buffer : slice)
      (fuel : nat) (w0 : world) :
  healthy e ->
  file_sync e = true ->
  device_size e = Some deviceSize ->
  0 < bufferSize <= Int64.max_int ->
  allocAlignedBuffer (heap_addr e) (alignedBufferSize bufferSize) = Ret buffer ->
  bufferSize <= s_cap buffer ->
  (Z.to_nat (benchVolume bufferSize deviceSize) <= fuel)%nat ->
  exists speed w',
    benchmarkWriteSpeed e bufferSize fuel w0 = Ret (speed, w') /\
    pos w' = pos w0 /\
    total (write_sizes (trace w'))
    = total (write_sizes (trace w0))
      + Z.max 0 (benchVolume bufferSize deviceSize).
Proof.
  intros Hh Hsync Hdev Hb Ha Hcap Hfuel.
  pose proof (benchVolume_in_range bufferSize deviceSize) as Hr.
  destruct (open_device_healthy e w0 Hh) as (w1 & Hopen & Hp1 & Hw1 & _ & _).
  set (w2 := mkWorld (pos w1 + 0) (n_rand w1) (n_write w1) (S (n_seek w1))
                     (S (n_clock w1))
                     ((trace w1
                       ++ [EvPrint (BenchStart (benchVolume bufferSize deviceSize))])
                      ++ [EvSeek 0 SeekCurrent])).
  destruct (bench_loop_spec e bufferSize buffer Hh Hb Hcap fuel
              (benchVolume bufferSize deviceSize) 0 w2)
    as (w3 & Hloop & Hp3 & Hw3 & Hs3);
    [unfold Int64.in_range in Hr; lia | lia | rewrite Z.sub_0_r; exact Hfuel |].
  assert (Hwrites : benchmark_writes e bufferSize fuel w0
                    = Ret ((pos w1 + 0, clock e (n_clock w1),
                            Z.max 0 (benchVolume bufferSize deviceSize)), w3)).
  { unfold benchmark_writes. erewrite bind_Ret by exact Hopen. rewrite Ha.
    erewrite bind_Ret by reflexivity.
    unfold getDeviceSize. rewrite Hdev.
    erewrite bind_Ret by reflexivity.
    erewrite bind_Ret by reflexivity.
    erewrite bind_Ret by reflexivity.
    erewrite bind_Ret
      by (unfold file_Seek; cbn [n_seek]; rewrite (h_seek e Hh); reflexivity).
    erewrite bind_Ret by reflexivity.
    erewrite bind_Ret by exact Hloop. reflexivity. }
  unfold benchmarkWriteSpeed. erewrite bind_Ret by exact Hwrites.
  cbv iota beta.
  erewrite bind_Ret
    by (unfold file_Seek; rewrite Hs3; cbn [w2 n_seek];
        rewrite (h_seek e Hh); reflexivity).
  erewrite bind_Ret by reflexivity.
  unfold bind at 1, file_Sync, bind, emit, ret. rewrite Hsync. cbn [negb].
  unfold bind, time_Since, time_Now, bind, ret, print, emit.
  do 2 eexists. split; [reflexivity|].
  cbn [pos trace]. split; [lia|].
  rewrite !write_sizes_app, !total_app. cbn [w2 trace] in Hw3.
  rewrite !write_sizes_app, !total_app, Hw1 in Hw3.
  cbn [write_sizes flat_map app total fold_right] in Hw3 |- *. lia.
Qed.

(** ** The benchmark *)

Lemma open_device_pos e w w' :
  open_device e w = Ret (tt, w') -> pos w' = pos w.
Proof.
  unfold open_device. destruct (open_direct e).
  - unfold ret. intros H. injection H as <-. reflexivity.
  - unfold bind, print, emit. destruct (open_sync e).
    + unfold ret. intros H. injection H as <-. reflexivity.
    + discriminate.
Qed.

(** The offset [benchmark_writes] records is the offset the handle had
    when the function was entered. *)
Lemma benchmark_writes_origin e bufferSize fuel w0 originalPos startTime
      written w1 :
  benchmark_writes e bufferSize fuel w0
  = Ret ((originalPos, startTime, written), w1) ->
  originalPos = pos w0.
Proof.
  unfold benchmark_writes. unfold bind at 1.
  destruct (open_device e w0) as [[[] wa]| | |] eqn:Eo; try discriminate.
  apply open_device_pos in Eo.
  unfold bind at 1, lift.
  destruct (allocAlignedBuffer _ _) as [buffer| | |]; try discriminate.
  unfold bind at 1, getDeviceSize.
  destruct (device_size e) as [d|]; cbn [orfail]; [|discriminate].
  unfold ret at 1. unfold bind at 1, print, emit.
  unfold bind at 1, time_Now. unfold bind at 1, file_Seek.
  cbn [n_seek pos].
  destruct (file_seek e (n_seek wa)); cbn [orfail];
    [|unfold bind, fail; discriminate].
  unfold bind at 1, ret at 1. unfold bind.
  destruct (bench_loop _ _ _ _ _ _ _) as [[wr wb]| | |]; try discriminate.
  unfold ret. intros H. injection H as <- _ _ _. lia.
Qed.

(** C8: whatever the benchmark volume, a benchmark that returns a speed
    leaves the file offset where it was when the function was entered,
    which is the offset it recorded before its first write; and when the
    seek that restores the offset fails after the writes are done, the
    function returns the error "benchmark completed but failed to restore
    original position", which is none of the errors of a failed open,
    probe, write or sync.  On a system where nothing fails such a run
    exists for every device size, the small devices with a reduced volume
    included. *)
Theorem benchmark_restores_offset (e : env) (bufferSize : Z) (fuel : nat)
      (w0 : world) :
  (forall speed w',
     benchmarkWriteSpeed e bufferSize fuel w0 = Ret (speed, w') ->
     pos w' = pos w0) /\
  (forall originalPos startTime written w1,
     benchmark_writes e bufferSize fuel w0
     = Ret ((originalPos, startTime, written), w1) ->
     originalPos = pos w0 /\
     (file_seek e (n_seek w1) = false ->
      benchmarkWriteSpeed e bufferSize fuel w0 = Fail ErrRestore)) /\
  (forall deviceSize buffer,
     healthy e ->
     file_sync e = true ->
     device_size e = Some deviceSize ->
     0 < bufferSize <= Int64.max_int ->
     allocAlignedBuffer (heap_addr e) (alignedBufferSize bufferSize)
     = Ret buffer ->
     bufferSize <= s_cap buffer ->
     (Z.to_nat (benchVolume bufferSize deviceSize) <= fuel)%nat ->
     exists speed w',
       benchmarkWriteSpeed e bufferSize fuel w0 = Ret (speed, w') /\
       pos w' = pos w0) /\
  ErrRestore <> ErrOpen /\ ErrRestore <> ErrProbe /\ ErrRestore <> ErrRand /\
  ErrRestore <> ErrWrite /\ ErrRestore <> ErrSeek /\ ErrRestore <> ErrBenchSync.
Proof.
  split; [|split; [|split]].
  - intros speed w'. unfold benchmarkWriteSpeed. unfold bind at 1.
    destruct (benchmark_writes e bufferSize fuel w0)
      as [[[[originalPos startTime] written] w1]| | |] eqn:Ew;
      try discriminate.
    apply benchmark_writes_origin in Ew.
    unfold bind at 1, file_Seek.
    destruct (file_seek e (n_seek w1)); cbn [orfail];
      [|unfold bind, fail; discriminate].
    unfold bind at 1, ret at 1. unfold bind at 1, file_Sync, bind, emit, ret.
    cbn [pos n_rand n_write n_seek n_clock trace].
    destruct (file_sync e); cbn [negb]; [|discriminate].
    unfold time_Since, time_Now, bind, ret, print, emit.
    intros H. injection H as _ <-. cbn [pos]. exact Ew.
  - intros originalPos startTime written w1 Hw.
    split; [exact (benchmark_writes_origin _ _ _ _ _ _ _ _ Hw)|].
    intros Hseek. unfold benchmarkWriteSpeed.
    erewrite bind_Ret by exact Hw.
    unfold bind, file_Seek. rewrite Hseek. reflexivity.
  - intros deviceSize buffer Hh Hsync Hdev Hb Ha Hcap Hfuel.
    destruct (benchmark_succeeds e bufferSize deviceSize buffer fuel w0
                Hh Hsync Hdev Hb Ha Hcap Hfuel)
      as (speed & w' & Hrun & Hpos & _).
    exists speed, w'. split; assumption.
  - repeat split; discriminate.
Qed.

Lemma benchmark_restores_offset_witness :
  (exists speed w',
     benchmarkWriteSpeed small_device 4096 (Z.to_nat 8192) fresh
     = Ret (speed, w') /\
     pos w' = pos fresh) /\
  (exists originalPos startTime written w1,
     benchmark_writes small_device_restore_fails 4096 (Z.to_nat 8192) fresh
     = Ret ((originalPos, startTime, written), w1) /\
     originalPos = pos fresh /\
     file_seek small_device_restore_fails (n_seek w1) = false /\
     benchmarkWriteSpeed small_device_restore_fails 4096 (Z.to_nat 8192) fresh
     = Fail ErrRestore) /\
  (healthy small_device /\
   file_sync small_device = true /\
   device_size small_device = Some 20000 /\
   20000 < 10737418240 * 2 /\
   benchVolume 4096 20000 = 8192 /\
   0 < 4096 <= Int64.max_int /\
   allocAlignedBuffer (heap_addr small_device)
                      (alignedBufferSize 4096)
   = Ret (mkSlice page 4096 8192) /\
   4096 <= s_cap (mkSlice page 4096 8192) /\
   (Z.to_nat (benchVolume 4096 20000) <= Z.to_nat 8192)%nat /\
   exists speed w',
     benchmarkWriteSpeed small_device 4096 (Z.to_nat 8192) fresh
     = Ret (speed, w') /\
     pos w' = pos fresh).
Proof.
  split; [|split].
  - do 2 eexists.
    assert (Hrun : benchmarkWriteSpeed small_device 4096 (Z.to_nat 8192)
                     fresh = Ret (_, _)) by (vm_compute; reflexivity).
    split; [exact Hrun|].
    exact (proj1 (benchmark_restores_offset small_device 4096
                    (Z.to_nat 8192) fresh) _ _ Hrun).
  - do 4 eexists.
    assert (Hw : benchmark_writes small_device_restore_fails 4096 (Z.to_nat 8192)
                   fresh = Ret ((_, _, _), _)) by (vm_compute; reflexivity).
    destruct (proj1 (proj2 (benchmark_restores_offset
                              small_device_restore_fails 4096 (Z.to_nat 8192)
                              fresh))
                _ _ _ _ Hw) as [Horigin Hfail].
    split; [exact Hw|]. split; [exact Horigin|].
    split; [reflexivity|]. apply Hfail. reflexivity.
  - assert (Hb : 0 < 4096 <= Int64.max_int) by (unfold Int64.max_int; lia).
    assert (Hc : 4096 <= s_cap (mkSlice page 4096 8192)) by (cbn; lia).
    assert (Hf : (Z.to_nat (benchVolume 4096 20000) <= Z.to_nat 8192)%nat)
      by (change (benchVolume 4096 20000) with 8192; lia).
    split; [apply steady_healthy|]. split; [reflexivity|].
    split; [reflexivity|]. split; [lia|]. split; [reflexivity|].
    split; [exact Hb|]. split; [reflexivity|]. split; [exact Hc|].
    split; [exact Hf|].
    exact (proj1 (proj2 (proj2 (benchmark_restores_offset
                                  small_device 4096 (Z.to_nat 8192)
                                  fresh)))
             20000 (mkSlice page 4096 8192)
             (steady_healthy _ _ _ : healthy small_device) eq_refl
             eq_refl Hb eq_refl Hc Hf).
Defined.

(** ** When the buffer holds a whole write *)

(** The write slices fit when [bufferSize] is a multiple of 4096 or the
    allocator returns a page-aligned array. *)
Lemma alloc_holds_buffer (addr bufferSize : Z) :
  0 <= addr <= Int64.max_int ->
  0 < bufferSize <= Int64.max_int - 8192 ->
  bufferSize mod 4096 = 0 \/ addr mod 4096 = 0 ->
  exists b,
    allocAlignedBuffer addr (alignedBufferSize bufferSize) = Ret b /\
    bufferSize <= s_cap b.
Proof.
  intros Ha Hb Hor.
  assert (Hmax : Int64.max_int = 2 ^ 63 - 1) by reflexivity.
  pose proof (Z.mod_pos_bound (4096 - addr mod 4096) 4096 ltac:(lia)) as Hoff.
  destruct (Z.lt_ge_cases bufferSize 4096) as [Hlt|Hge].
  - rewrite alignedBufferSize_small by lia.
    rewrite allocAlignedBuffer_spec by lia.
    eexists. split; [reflexivity|]. cbn [s_cap]. lia.
  - rewrite alignedBufferSize_large by lia.
    pose proof (Z.div_mod bufferSize 4096 ltac:(lia)) as Hdm.
    pose proof (Z.mod_pos_bound bufferSize 4096 ltac:(lia)) as Hmb.
    rewrite allocAlignedBuffer_spec by lia.
    eexists. split; [reflexivity|]. cbn [s_cap].
    destruct Hor as [Hm|Hm].
    + lia.
    + rewrite Hm in *. change ((4096 - 0) mod 4096) with 0. lia.
Qed.

Lemma wipe_full_witness :
  healthy (steady off_page 20000 0) /\
  0 < 20000 <= Int64.max_int /\
  0 < 8192 <= Int64.max_int /\
  allocAlignedBuffer (heap_addr (steady off_page 20000 0))
                     (alignedBufferSize 8192)
  = Ret (mkSlice 824633724928 8192 8193) /\
  Z.min 8192 20000 <= s_cap (mkSlice 824633724928 8192 8193) /\
  (Z.to_nat 20000 <= Z.to_nat 20000)%nat /\
  exists s w,
    wipeDevice (steady off_page 20000 0) (Z.to_nat 20000) 20000 8192 1 fresh
    = Ret (s, w) /\
    bytesWritten s = 20000 /\
    bytesProcessed s = 20000 /\
    total (write_sizes (trace w)) = 20000 /\
    seek_offsets (trace w) = [].
Proof.
  assert (H1 : 0 < 20000 <= Int64.max_int) by (unfold Int64.max_int; lia).
  assert (H2 : 0 < 8192 <= Int64.max_int) by (unfold Int64.max_int; lia).
  assert (H3 : allocAlignedBuffer (heap_addr (steady off_page 20000 0))
                                  (alignedBufferSize 8192)
               = Ret (mkSlice 824633724928 8192 8193)) by reflexivity.
  assert (H4 : Z.min 8192 20000 <= s_cap (mkSlice 824633724928 8192 8193))
    by (cbn; lia).
  split; [apply steady_healthy|]. split; [exact H1|]. split; [exact H2|].
  split; [exact H3|]. split; [exact H4|]. split; [lia|].
  apply (wipe_full (steady off_page 20000 0) 20000 8192
           (mkSlice 824633724928 8192 8193) (Z.to_nat 20000)
           (steady_healthy _ _ _) H1 H2 H3 H4).
  lia.
Defined.

(** * Formatting helpers *)







Lemma sub_add_wrapped a b c :
  Int64.in_range (a + b - c) -> Int64.sub (Int64.add a b) c = a + b - c.
Proof.
  intros H. rewrite <- (wrap_small (a + b - c) H).
  unfold Int64.sub, Int64.add, Int64.wrap. f_equal.
  replace ((a + b + 2 ^ 63) mod 2 ^ 64 - 2 ^ 63 - c + 2 ^ 63)
    with ((a + b + 2 ^ 63) mod 2 ^ 64 - c) by lia.
  rewrite Zminus_mod_idemp_l. f_equal. lia.
Qed.

Lemma Duration_Round_second d :
  0 <= d <= Int64.max_int - 500000000 ->
  Duration_Round d Second = (d + 500000000) / 1000000000 * 1000000000.
Proof.
  intros Hd. assert (Hmax : Int64.max_int = 2 ^ 63 - 1) by reflexivity.
  unfold Duration_Round, Second.
  destruct (Z.leb_spec 1000000000 0); [lia|].
  destruct (Z.ltb_spec d 0); [lia|].
  rewrite rem_nonneg by lia.
  pose proof (Z.mod_pos_bound d 1000000000 ltac:(lia)) as Hr.
  pose proof (Z.div_mod d 1000000000 ltac:(lia)) as Hdm.
  unfold lessThanHalf.
  rewrite (Z.mod_small (d mod 1000000000)) by lia.
  rewrite (Z.mod_small (d mod 1000000000 + d mod 1000000000)) by lia.
  rewrite (Z.mod_small 1000000000) by lia.
  destruct (Z.ltb_spec (d mod 1000000000 + d mod 1000000000) 1000000000).
  - rewrite sub_small
      by (unfold Int64.in_range, Int64.min_int, Int64.max_int; lia).
    assert ((d + 500000000) / 1000000000 = d / 1000000000).
    { symmetry. apply (Z.div_unique _ _ _ (d mod 1000000000 + 500000000));
        lia. }
    lia.
  - rewrite sub_add_wrapped
      by (unfold Int64.in_range, Int64.min_int, Int64.max_int; lia).
    assert ((d + 500000000) / 1000000000 = d / 1000000000 + 1).
    { symmetry. apply (Z.div_unique _ _ _ (d mod 1000000000 - 500000000));
        lia. }
    destruct (Z.ltb_spec d (d + 1000000000 - d mod 1000000000)); lia.
Qed.

(** X2: for a duration [d >= 0] (below the saturation of [Round])
    [formatDuration] rounds to the nearest second, halves up, and splits
    the [T] seconds exactly: minutes and seconds when [T] is under an hour,
    else hours, minutes below 60 and seconds below 60, with
    [3600 h + 60 m + s = T]. *)
Theorem formatDuration_rounds (d : Z) :
  0 <= d <= Int64.max_int - 500000000 ->
  let T := (d + 500000000) / 1000000000 in
  formatDuration d
  = (if T <? 3600 then MinutesSeconds (T / 60) (T mod 60)
     else HoursMinutesSeconds (T / 3600) (T mod 3600 / 60) (T mod 60)) /\
  3600 * (T / 3600) + 60 * (T mod 3600 / 60) + T mod 60 = T /\
  0 <= T mod 3600 / 60 < 60 /\
  0 <= T mod 60 < 60.
Proof.
  intros Hd T. assert (Hmax : Int64.max_int = 2 ^ 63 - 1) by reflexivity.
  assert (HT : 0 <= T < 9223372037)
    by (subst T; split;
        [apply Z.div_pos; lia | apply Z.div_lt_upper_bound; lia]).
  pose proof (Z.div_mod T 3600 ltac:(lia)) as H1.
  pose proof (Z.mod_pos_bound T 3600 ltac:(lia)) as H2.
  pose proof (Z.div_mod (T mod 3600) 60 ltac:(lia)) as H3.
  pose proof (Z.mod_pos_bound (T mod 3600) 60 ltac:(lia)) as H4.
  assert (H5 : T mod 60 = (T mod 3600) mod 60).
  { symmetry. apply Z.mod_mod_divide. exists 60. reflexivity. }
  assert (Hq : 0 <= T mod 3600 / 60 < 60)
    by (split; [apply Z.div_pos; lia | apply Z.div_lt_upper_bound; lia]).
  split; [|split; [lia|split; [exact Hq|lia]]].
  unfold formatDuration. rewrite Duration_Round_second by exact Hd. fold T.
  unfold Hour, Minute, Second.
  change (60 * (60 * 1000000000)) with 3600000000000.
  change (60 * 1000000000) with 60000000000.
  assert (Hh : T * 1000000000 / 3600000000000 = T / 3600).
  { change 3600000000000 with (3600 * 1000000000).
    rewrite Z.div_mul_cancel_r by lia. reflexivity. }
  rewrite (div_small (T * 1000000000)) by lia. rewrite Hh.
  assert (0 <= T / 3600 <= T)
    by (split; [apply Z.div_pos; lia | apply Z.div_le_upper_bound; lia]).
  rewrite mul_small
    by (unfold Int64.in_range, Int64.min_int, Int64.max_int; lia).
  rewrite sub_small
    by (unfold Int64.in_range, Int64.min_int, Int64.max_int; lia).
  replace (T * 1000000000 - T / 3600 * 3600000000000)
    with (T mod 3600 * 1000000000) by lia.
  assert (Hm : T mod 3600 * 1000000000 / 60000000000 = T mod 3600 / 60).
  { change 60000000000 with (60 * 1000000000).
    rewrite Z.div_mul_cancel_r by lia. reflexivity. }
  rewrite (div_small (T mod 3600 * 1000000000)) by lia. rewrite Hm.
  rewrite mul_small
    by (unfold Int64.in_range, Int64.min_int, Int64.max_int; lia).
  rewrite sub_small
    by (unfold Int64.in_range, Int64.min_int, Int64.max_int; lia).
  replace (T mod 3600 * 1000000000 - T mod 3600 / 60 * 60000000000)
    with (T mod 60 * 1000000000) by lia.
  rewrite div_small by lia. rewrite Z.div_mul by lia.
  destruct (Z.ltb_spec 0 (T / 3600)) as [Hpos|Hzero];
    destruct (Z.ltb_spec T 3600) as [Hlt|Hge].
  - rewrite Z.div_small in Hpos; lia.
  - reflexivity.
  - assert (Hs : T mod 3600 = T) by (apply Z.mod_small; lia).
    rewrite Hs. reflexivity.
  - assert (1 <= T / 3600) by (apply Z.div_le_lower_bound; lia). lia.
Qed.

Lemma formatDuration_rounds_witness :
  0 <= 3661500000000 <= Int64.max_int - 500000000 /\
  formatDuration 3661500000000 = HoursMinutesSeconds 1 1 2.
Proof.
  assert (H : 0 <= 3661500000000 <= Int64.max_int - 500000000)
    by (unfold Int64.max_int; lia).
  split; [exact H|].
  exact (proj1 (formatDuration_rounds 3661500000000 H)).
Defined.

Lemma add_sub_wrapped a b c :
  Int64.in_range (a - b + c) -> Int64.add (Int64.sub a b) c = a - b + c.
Proof.
  intros H. rewrite <- (wrap_small (a - b + c) H).
  unfold Int64.sub, Int64.add, Int64.wrap. f_equal.
  replace ((a - b + 2 ^ 63) mod 2 ^ 64 - 2 ^ 63 + c + 2 ^ 63)
    with ((a - b + 2 ^ 63) mod 2 ^ 64 + c) by lia.
  rewrite Zplus_mod_idemp_l. f_equal. lia.
Qed.

Lemma div_negative a b :
  0 <= a <= Int64.max_int -> 0 < b -> Int64.div (- a) b = - (a / b).
Proof.
  intros Ha Hb. unfold Int64.div.
  rewrite Z.quot_opp_l by lia. rewrite Z.quot_div_nonneg by lia.
  apply wrap_small.
  assert (0 <= a / b <= a)
    by (split; [apply Z.div_pos; lia | apply Z.div_le_upper_bound; nia]).
  unfold Int64.in_range, Int64.min_int, Int64.max_int in *. lia.
Qed.

Lemma Duration_Round_second_negative x :
  0 < x <= Int64.max_int - 500000000 ->
  Duration_Round (- x) Second
  = - ((x + 500000000) / 1000000000 * 1000000000).
Proof.
  intros Hx. assert (Hmax : Int64.max_int = 2 ^ 63 - 1) by reflexivity.
  unfold Duration_Round, Second.
  destruct (Z.leb_spec 1000000000 0); [lia|].
  destruct (Z.ltb_spec (- x) 0); [|lia].
  unfold Int64.rem. rewrite Z.rem_opp_l by lia.
  rewrite Z.rem_mod_nonneg by lia.
  pose proof (Z.mod_pos_bound x 1000000000 ltac:(lia)) as Hr.
  pose proof (Z.div_mod x 1000000000 ltac:(lia)) as Hdm.
  rewrite (sub_small 0)
    by (unfold Int64.in_range, Int64.min_int, Int64.max_int; lia).
  replace (0 - - (x mod 1000000000)) with (x mod 1000000000) by lia.
  unfold lessThanHalf.
  rewrite (Z.mod_small (x mod 1000000000)) by lia.
  rewrite (Z.mod_small (x mod 1000000000 + x mod 1000000000)) by lia.
  rewrite (Z.mod_small 1000000000) by lia.
  destruct (Z.ltb_spec (x mod 1000000000 + x mod 1000000000) 1000000000).
  - rewrite add_small
      by (unfold Int64.in_range, Int64.min_int, Int64.max_int; lia).
    assert ((x + 500000000) / 1000000000 = x / 1000000000).
    { symmetry. apply (Z.div_unique _ _ _ (x mod 1000000000 + 500000000));
        lia. }
    lia.
  - rewrite add_sub_wrapped
      by (unfold Int64.in_range, Int64.min_int, Int64.max_int; lia).
    assert ((x + 500000000) / 1000000000 = x / 1000000000 + 1).
    { symmetry. apply (Z.div_unique _ _ _ (x mod 1000000000 - 500000000));
        lia. }
    destruct (Z.ltb_spec (- x - 1000000000 + x mod 1000000000) (- x)); lia.
Qed.

(** X3: a negative duration [-x] is rounded away from zero to [T] seconds
    and printed as minutes and seconds only, both negated: since the test
    is [h > 0], the hours of a negative duration are never shown. *)
Theorem formatDuration_negative (x : Z) :
  0 < x <= Int64.max_int - 500000000 ->
  let T := (x + 500000000) / 1000000000 in
  formatDuration (- x)
  = MinutesSeconds (- (T mod 3600 / 60)) (- (T mod 60)).
Proof.
  intros Hx T. assert (Hmax : Int64.max_int = 2 ^ 63 - 1) by reflexivity.
  assert (HT : 0 <= T < 9223372037)
    by (subst T; split;
        [apply Z.div_pos; lia | apply Z.div_lt_upper_bound; lia]).
  pose proof (Z.div_mod T 3600 ltac:(lia)) as H1.
  pose proof (Z.mod_pos_bound T 3600 ltac:(lia)) as H2.
  pose proof (Z.div_mod (T mod 3600) 60 ltac:(lia)) as H3.
  pose proof (Z.mod_pos_bound (T mod 3600) 60 ltac:(lia)) as H4.
  assert (H5 : T mod 60 = (T mod 3600) mod 60).
  { symmetry. apply Z.mod_mod_divide. exists 60. reflexivity. }
  assert (Hq : 0 <= T mod 3600 / 60 < 60)
    by (split; [apply Z.div_pos; lia | apply Z.div_lt_upper_bound; lia]).
  unfold formatDuration. rewrite Duration_Round_second_negative by exact Hx.
  fold T. unfold Hour, Minute, Second.
  change (60 * (60 * 1000000000)) with 3600000000000.
  change (60 * 1000000000) with 60000000000.
  assert (Hh : T * 1000000000 / 3600000000000 = T / 3600).
  { change 3600000000000 with (3600 * 1000000000).
    rewrite Z.div_mul_cancel_r by lia. reflexivity. }
  rewrite (div_negative (T * 1000000000)) by lia. rewrite Hh.
  assert (0 <= T / 3600 <= T)
    by (split; [apply Z.div_pos; lia | apply Z.div_le_upper_bound; lia]).
  rewrite mul_small
    by (unfold Int64.in_range, Int64.min_int, Int64.max_int; lia).
  rewrite sub_small
    by (unfold Int64.in_range, Int64.min_int, Int64.max_int; lia).
  replace (- (T * 1000000000) - - (T / 3600) * 3600000000000)
    with (- (T mod 3600 * 1000000000)) by lia.
  assert (Hm : T mod 3600 * 1000000000 / 60000000000 = T mod 3600 / 60).
  { change 60000000000 with (60 * 1000000000).
    rewrite Z.div_mul_cancel_r by lia. reflexivity. }
  rewrite (div_negative (T mod 3600 * 1000000000)) by lia. rewrite Hm.
  rewrite mul_small
    by (unfold Int64.in_range, Int64.min_int, Int64.max_int; lia).
  rewrite sub_small
    by (unfold Int64.in_range, Int64.min_int, Int64.max_int; lia).
  replace (- (T mod 3600 * 1000000000) - - (T mod 3600 / 60) * 60000000000)
    with (- (T mod 60 * 1000000000)) by lia.
  rewrite div_negative by lia. rewrite Z.div_mul by lia.
  destruct (Z.ltb_spec 0 (- (T / 3600))); [lia|reflexivity].
Qed.

Lemma formatDuration_negative_witness :
  0 < 3661000000000 <= Int64.max_int - 500000000 /\
  formatDuration (- 3661000000000) = MinutesSeconds (- 1) (- 1).
Proof.
  assert (H : 0 < 3661000000000 <= Int64.max_int - 500000000)
    by (unfold Int64.max_int; lia).
  split; [exact H|].
  exact (formatDuration_negative 3661000000000 H).
Defined.

(** * The benchmark volume *)

Lemma benchVolume_small (bufferSize deviceSize : Z) :
  0 <= deviceSize < 21474836480 ->
  0 < bufferSize ->
  2 * bufferSize <= Int64.max_int ->
  benchVolume bufferSize deviceSize = Z.max (deviceSize / 4) (2 * bufferSize).
Proof.
  intros Hd Hb Hb2. assert (Hmax : Int64.max_int = 2 ^ 63 - 1) by reflexivity.
  unfold benchVolume.
  change (Int64.mul 10737418240 2) with 21474836480.
  rewrite div_small by lia.
  rewrite mul_small
    by (unfold Int64.in_range, Int64.min_int, Int64.max_int; lia).
  destruct (Z.ltb_spec deviceSize 21474836480); [|lia].
  destruct (Z.ltb_spec (deviceSize / 4) (bufferSize * 2)); lia.
Qed.

(** X4: for a device of [deviceSize] bytes and a buffer of [bufferSize]
    bytes, the benchmark volume is 10 GiB from 20 GiB on, and below that the
    larger of a quarter of the device and two buffers; so a device smaller
    than two buffers gets a volume larger than the device itself. *)
Theorem benchVolume_bounds (bufferSize deviceSize : Z) :
  0 <= deviceSize <= Int64.max_int ->
  0 < bufferSize ->
  2 * bufferSize <= Int64.max_int ->
  (21474836480 <= deviceSize ->
   benchVolume bufferSize deviceSize = 10737418240) /\
  (deviceSize < 21474836480 ->
   benchVolume bufferSize deviceSize = Z.max (deviceSize / 4) (2 * bufferSize) /\
   (8 * bufferSize <= deviceSize ->
    benchVolume bufferSize deviceSize = deviceSize / 4) /\
   (deviceSize < 2 * bufferSize ->
    deviceSize < benchVolume bufferSize deviceSize)).
Proof.
  intros Hd Hb Hb2. assert (Hmax : Int64.max_int = 2 ^ 63 - 1) by reflexivity.
  unfold benchVolume.
  change (Int64.mul 10737418240 2) with 21474836480.
  rewrite div_small by lia.
  rewrite mul_small
    by (unfold Int64.in_range, Int64.min_int, Int64.max_int; lia).
  assert (Hq : 0 <= deviceSize / 4 <= deviceSize)
    by (split; [apply Z.div_pos; lia | apply Z.div_le_upper_bound; lia]).
  split.
  - intros Hbig. destruct (Z.ltb_spec deviceSize 21474836480); [lia|].
    reflexivity.
  - intros Hsmall. destruct (Z.ltb_spec deviceSize 21474836480); [|lia].
    destruct (Z.ltb_spec (deviceSize / 4) (bufferSize * 2)) as [Hlt|Hge].
    + split; [lia|]. split; [|lia].
      intros H8. exfalso.
      assert (2 * bufferSize <= deviceSize / 4)
        by (apply Z.div_le_lower_bound; lia).
      lia.
    + split; [lia|]. split; [reflexivity|]. intros. lia.
Qed.

Lemma benchVolume_bounds_witness :
  0 <= 20000 <= Int64.max_int /\
  0 < 4194304 /\
  2 * 4194304 <= Int64.max_int /\
  20000 < 21474836480 /\
  20000 < 2 * 4194304 /\
  benchVolume 4194304 20000 = Z.max (20000 / 4) (2 * 4194304) /\
  20000 < benchVolume 4194304 20000.
Proof.
  assert (H1 : 0 <= 20000 <= Int64.max_int) by (unfold Int64.max_int; lia).
  assert (H2 : 0 < 4194304) by lia.
  assert (H3 : 2 * 4194304 <= Int64.max_int) by (unfold Int64.max_int; lia).
  assert (H4 : 20000 < 21474836480) by lia.
  assert (H5 : 20000 < 2 * 4194304) by lia.
  destruct (proj2 (benchVolume_bounds 4194304 20000 H1 H2 H3) H4)
    as (Heq & _ & Hexceeds).
  split; [exact H1|]. split; [exact H2|]. split; [exact H3|].
  split; [exact H4|]. split; [exact H5|].
  split; [exact Heq|exact (Hexceeds H5)].
Defined.

(** X5: on a system where nothing fails, the benchmark of a device below
    20 GiB returns after writing exactly its volume, which is at least two
    buffers, whatever the device holds: a device smaller than two buffers
    receives more bytes than its size; the file offset is then back where
    it was. *)
Theorem benchmark_writes_volume (e : env) (bufferSize deviceSize : Z)
      (buffer : slice) (fuel : nat) (w0 : world) :
  healthy e ->
  file_sync e = true ->
  device_size e = Some deviceSize ->
  0 <= deviceSize < 21474836480 ->
  0 < bufferSize ->
  2 * bufferSize <= Int64.max_int ->
  allocAlignedBuffer (heap_addr e) (alignedBufferSize bufferSize) = Ret buffer ->
  bufferSize <= s_cap buffer ->
  (Z.to_nat (benchVolume bufferSize deviceSize) <= fuel)%nat ->
  exists speed w',
    benchmarkWriteSpeed e bufferSize fuel w0 = Ret (speed, w') /\
    total (write_sizes (trace w'))
    = total (write_sizes (trace w0)) + Z.max (deviceSize / 4) (2 * bufferSize) /\
    (deviceSize < 2 * bufferSize ->
     deviceSize
     < total (write_sizes (trace w')) - total (write_sizes (trace w0))) /\
    pos w' = pos w0.
Proof.
  intros Hh Hsync Hdev Hd Hb Hb2 Ha Hcap Hfuel.
  assert (Hmax : Int64.max_int = 2 ^ 63 - 1) by reflexivity.
  pose proof (benchVolume_small bufferSize deviceSize Hd Hb Hb2) as Heq.
  destruct (benchmark_succeeds e bufferSize deviceSize buffer fuel w0
              Hh Hsync Hdev ltac:(lia) Ha Hcap Hfuel)
    as (speed & w' & Hrun & Hpos & Hwr).
  exists speed, w'. split; [exact Hrun|].
  rewrite Heq in Hwr.
  assert (0 <= deviceSize / 4) by (apply Z.div_pos; lia).
  split; [lia|]. split; [lia|exact Hpos].
Qed.

Lemma benchmark_writes_volume_witness :
  healthy small_device /\
  file_sync small_device = true /\
  device_size small_device = Some 20000 /\
  0 <= 20000 < 21474836480 /\
  0 < 16384 /\
  2 * 16384 <= Int64.max_int /\
  allocAlignedBuffer (heap_addr small_device) (alignedBufferSize 16384)
  = Ret (mkSlice page 16384 20480) /\
  16384 <= s_cap (mkSlice page 16384 20480) /\
  (Z.to_nat (benchVolume 16384 20000) <= Z.to_nat 32768)%nat /\
  exists speed w',
    benchmarkWriteSpeed small_device 16384 (Z.to_nat 32768) fresh
    = Ret (speed, w') /\
    total (write_sizes (trace w'))
    = total (write_sizes (trace fresh)) + Z.max (20000 / 4) (2 * 16384) /\
    (20000 < 2 * 16384 ->
     20000 < total (write_sizes (trace w')) - total (write_sizes (trace fresh))) /\
    pos w' = pos fresh.
Proof.
  assert (H4 : 0 <= 20000 < 21474836480) by lia.
  assert (H5 : 0 < 16384) by lia.
  assert (H6 : 2 * 16384 <= Int64.max_int) by (unfold Int64.max_int; lia).
  assert (H8 : 16384 <= s_cap (mkSlice page 16384 20480)) by (cbn; lia).
  assert (H9 : (Z.to_nat (benchVolume 16384 20000) <= Z.to_nat 32768)%nat)
    by (change (benchVolume 16384 20000) with 32768; lia).
  split; [apply steady_healthy|]. split; [reflexivity|].
  split; [reflexivity|]. split; [exact H4|]. split; [exact H5|].
  split; [exact H6|]. split; [reflexivity|]. split; [exact H8|].
  split; [exact H9|].
  exact (benchmark_writes_volume small_device 16384 20000
           (mkSlice page 16384 20480) (Z.to_nat 32768) fresh
           (steady_healthy _ _ _ : healthy small_device) eq_refl eq_refl
           H4 H5 H6 eq_refl H8 H9).
Defined.

(** * More on the wipe pass *)

(** X6: when the skip arithmetic does not overflow, on a system where
    nothing fails a pass returns with [bytesProcessed = size]; the bytes
    written and the bytes skipped add up to [size], the file offset ends at
    [size], the written bytes are within one buffer above
    [size / skipFactor], and the writes and seeks issued are exactly the
    turns of the specification: [min(bufferSize, remaining)] written, then
    [min(bufferSize*(skipFactor-1), remaining)] skipped. *)
Theorem wipe_covers_device (e : env) (size bufferSize skipFactor : Z)
      (buffer : slice) (fuel : nat) :
  healthy e ->
  0 < size <= Int64.max_int ->
  0 < bufferSize <= Int64.max_int ->
  1 <= skipFactor <= Int64.max_int ->
  no_overflow size bufferSize skipFactor ->
  allocAlignedBuffer (heap_addr e) (alignedBufferSize bufferSize) = Ret buffer ->
  Z.min bufferSize size <= s_cap buffer ->
  (Z.to_nat size <= fuel)%nat ->
  exists s w,
    wipeDevice e fuel size bufferSize skipFactor fresh = Ret (s, w) /\
    bytesProcessed s = size /\
    0 < bytesWritten s <= size /\
    total (write_sizes (trace w)) = bytesWritten s /\
    total (write_sizes (trace w)) + total (seek_offsets (trace w)) = size /\
    pos w = size /\
    size / skipFactor <= bytesWritten s <= size / skipFactor + bufferSize /\
    device_ops (trace w) = expected_ops fuel size bufferSize skipFactor 0.
Proof.
  intros Hh Hs Hb Hk Hno Ha Hc Hf.
  destruct (wipeDevice_spec e size bufferSize skipFactor buffer Hh Hs Hb Hk
              Hno Ha Hc fuel fresh Hf)
    as (s & w & t & Hrun & Hend & Hcnt & Hwr & Hsk & _ & Hpos & Hops & _).
  exists s, w. split; [exact Hrun|]. split; [exact Hend|].
  destruct Hcnt as (Hw & _ & Hr & _). rewrite Hend in *.
  change (total (write_sizes (trace fresh))) with 0 in Hwr.
  change (total (seek_offsets (trace fresh))) with 0 in Hsk.
  change (pos fresh) with 0 in Hpos.
  change (device_ops (trace fresh)) with (@nil event) in Hops.
  split; [nia|]. split; [lia|]. split; [lia|]. split; [lia|].
  split; [|exact Hops].
  pose proof (Z.div_mod size skipFactor ltac:(lia)) as Hdm.
  pose proof (Z.mod_pos_bound size skipFactor ltac:(lia)) as Hmb.
  split.
  - apply Z.div_le_upper_bound; lia.
  - assert (skipFactor * bytesWritten s
            < skipFactor * (size / skipFactor + bufferSize + 1)) by nia.
    assert (bytesWritten s < size / skipFactor + bufferSize + 1) by nia.
    lia.
Qed.

Lemma wipe_covers_device_witness :
  healthy small_device /\
  0 < 20000 <= Int64.max_int /\
  0 < 4096 <= Int64.max_int /\
  1 <= 3 <= Int64.max_int /\
  no_overflow 20000 4096 3 /\
  allocAlignedBuffer (heap_addr small_device) (alignedBufferSize 4096)
  = Ret (mkSlice page 4096 8192) /\
  Z.min 4096 20000 <= s_cap (mkSlice page 4096 8192) /\
  (Z.to_nat 20000 <= Z.to_nat 20000)%nat /\
  exists s w,
    wipeDevice small_device (Z.to_nat 20000) 20000 4096 3 fresh = Ret (s, w) /\
    bytesProcessed s = 20000 /\
    0 < bytesWritten s <= 20000 /\
    total (write_sizes (trace w)) = bytesWritten s /\
    total (write_sizes (trace w)) + total (seek_offsets (trace w)) = 20000 /\
    pos w = 20000 /\
    20000 / 3 <= bytesWritten s <= 20000 / 3 + 4096 /\
    device_ops (trace w) = expected_ops (Z.to_nat 20000) 20000 4096 3 0.
Proof.
  assert (H1 : 0 < 20000 <= Int64.max_int) by (unfold Int64.max_int; lia).
  assert (H2 : 0 < 4096 <= Int64.max_int) by (unfold Int64.max_int; lia).
  assert (H3 : 1 <= 3 <= Int64.max_int) by (unfold Int64.max_int; lia).
  assert (H4 : no_overflow 20000 4096 3)
    by (right; unfold Int64.max_int; lia).
  assert (H6 : Z.min 4096 20000 <= s_cap (mkSlice page 4096 8192))
    by (cbn; lia).
  split; [apply steady_healthy|]. split; [exact H1|]. split; [exact H2|].
  split; [exact H3|]. split; [exact H4|]. split; [reflexivity|].
  split; [exact H6|]. split; [lia|].
  exact (wipe_covers_device small_device 20000 4096 3 (mkSlice page 4096 8192)
           (Z.to_nat 20000) (steady_healthy _ _ _ : healthy small_device)
           H1 H2 H3 H4 eq_refl H6 (le_n _)).
Defined.

(** X7: when [bufferSize] is a multiple of 4096 the buffer allocated for
    it is exactly [bufferSize] bytes long and starts on a 4096-byte
    boundary, and every slice [buffer[:writeSize]] the wipe loop takes
    starts there too and is at most as long as the buffer. *)
Theorem aligned_buffer_holds_writes (addr bufferSize : Z) :
  0 <= addr <= Int64.max_int ->
  0 < bufferSize <= Int64.max_int - 4096 ->
  bufferSize mod 4096 = 0 ->
  exists b,
    allocAlignedBuffer addr (alignedBufferSize bufferSize) = Ret b /\
    s_len b = bufferSize /\
    s_base b mod 4096 = 0 /\
    forall size s,
      0 < size <= Int64.max_int ->
      0 <= bytesProcessed s < size ->
      exists b',
        reslice b 0 (wipe_writeSize size bufferSize s) = Ret b' /\
        s_base b' = s_base b /\
        0 < s_len b' <= s_len b.
Proof.
  intros Ha Hb Hm. assert (Hmax : Int64.max_int = 2 ^ 63 - 1) by reflexivity.
  pose proof (Z.div_mod bufferSize 4096 ltac:(lia)) as Hdm.
  assert (Hge : 4096 <= bufferSize) by lia.
  assert (Heq : alignedBufferSize bufferSize = bufferSize)
    by (rewrite alignedBufferSize_large; lia).
  rewrite Heq. rewrite allocAlignedBuffer_spec by lia.
  eexists. split; [reflexivity|]. cbn [s_len s_base s_cap].
  split; [reflexivity|]. split; [apply aligned_offset|].
  intros size s Hs Hp.
  rewrite wipe_writeSize_spec by lia.
  pose proof (Z.mod_pos_bound (4096 - addr mod 4096) 4096 ltac:(lia)) as Ho.
  unfold reslice, spec_writeSize. cbn [s_cap s_base].
  set (ws := Z.min bufferSize (size - bytesProcessed s)).
  assert (0 < ws <= bufferSize) by (subst ws; lia).
  destruct (Z.leb_spec 0 0); [|lia].
  destruct (Z.leb_spec 0 ws); [|lia].
  destruct (Z.leb_spec ws
              (bufferSize + 4096 - (4096 - addr mod 4096) mod 4096)); [|lia].
  cbn [andb]. eexists. split; [reflexivity|]. cbn [s_base s_len].
  split; lia.
Qed.

Lemma aligned_buffer_holds_writes_witness :
  0 <= off_page <= Int64.max_int /\
  0 < 8192 <= Int64.max_int - 4096 /\
  8192 mod 4096 = 0 /\
  exists b,
    allocAlignedBuffer off_page (alignedBufferSize 8192) = Ret b /\
    s_len b = 8192 /\
    s_base b mod 4096 = 0 /\
    forall size s,
      0 < size <= Int64.max_int ->
      0 <= bytesProcessed s < size ->
      exists b',
        reslice b 0 (wipe_writeSize size 8192 s) = Ret b' /\
        s_base b' = s_base b /\
        0 < s_len b' <= s_len b.
Proof.
  assert (H1 : 0 <= off_page <= Int64.max_int)
    by (unfold off_page, Int64.max_int; lia).
  assert (H2 : 0 < 8192 <= Int64.max_int - 4096)
    by (unfold Int64.max_int; lia).
  split; [exact H1|]. split; [exact H2|]. split; [reflexivity|].
  exact (aligned_buffer_holds_writes off_page 8192 H1 H2 eq_refl).
Defined.

(** ** Buffer sizes that are not positive *)

Lemma alignedBufferSize_negative bufferSize :
  Int64.min_int <= bufferSize < 0 -> alignedBufferSize bufferSize = 4096.
Proof.
  intros H. assert (Hmin : Int64.min_int = - 2 ^ 63) by reflexivity.
  pose proof (Z.mul_quot_ge bufferSize 4096 ltac:(lia) ltac:(lia)) as Hq.
  unfold alignedBufferSize, Int64.div.
  assert (Hr : - 2 ^ 63 <= Z.quot bufferSize 4096 <= 0) by lia.
  rewrite wrap_small
    by (unfold Int64.in_range, Int64.min_int, Int64.max_int; lia).
  rewrite mul_small
    by (unfold Int64.in_range, Int64.min_int, Int64.max_int; lia).
  destruct (Z.ltb_spec (Z.quot bufferSize 4096 * 4096) 4096); [reflexivity|lia].
Qed.

Section NoBuffer.

Variable e : env.
Variables size skipFactor : Z.
Variable buffer : slice.
Hypothesis Hhealthy : healthy e.
Hypothesis Hsize : 0 < size <= Int64.max_int.
Hypothesis Hcap : 0 <= s_cap buffer.

Lemma zero_buffer_iter s w :
  bytesProcessed s = 0 ->
  exists s' w',
    wipe_iter e size 0 skipFactor buffer s w = Ret (s', w') /\
    bytesProcessed s' = 0 /\
    total (write_sizes (trace w')) = total (write_sizes (trace w)).
Proof.
  intros Hz. unfold wipe_iter.
  assert (Hwrite : wipe_write e size 0 buffer s w
                   = Ret (0, mkWorld (pos w + 0) (S (n_rand w)) (S (n_write w))
                                     (n_seek w) (n_clock w)
                                     (trace w ++ [EvWrite 0 0]))).
  { unfold wipe_write, bind, rand_Read. rewrite (h_rand e Hhealthy).
    cbn [negb]. unfold wipe_writeSize. rewrite Hz.
    rewrite sub_small
      by (unfold Int64.in_range, Int64.min_int, Int64.max_int in *; lia).
    destruct (Z.ltb_spec (size - 0) 0); [lia|].
    unfold lift, reslice. destruct (Z.leb_spec 0 (s_cap buffer)); [|lia].
    change (0 <=? 0) with true. cbn [andb].
    unfold file_Write. cbn [s_len n_write].
    change (0 - 0) with 0. rewrite (h_write e Hhealthy). reflexivity. }
  erewrite bind_Ret by exact Hwrite. cbv beta zeta. rewrite Hz.
  change (Int64.add 0 0) with 0.
  assert (Hskip : forall w1, exists w2,
            wipe_skip e size 0 skipFactor 0 w1 = Ret (0, w2) /\
            write_sizes (trace w2) = write_sizes (trace w1)).
  { intros w1. unfold wipe_skip.
    destruct ((1 <? skipFactor) && (0 <? size)).
    - unfold wipe_skipSize. unfold Int64.mul. rewrite Z.mul_0_l.
      change (Int64.wrap 0) with 0. change (Int64.add 0 0) with 0.
      destruct (Z.ltb_spec size 0); [lia|].
      unfold bind, file_Seek. rewrite (h_seek e Hhealthy).
      cbn [orfail ret]. eexists. split; [reflexivity|]. cbn [trace].
      rewrite write_sizes_app. cbn. apply app_nil_r.
    - eexists. split; reflexivity. }
  match goal with |- context [bind _ _ ?w1] =>
    destruct (Hskip w1) as (w2 & Hrun & Hwr)
  end.
  erewrite bind_Ret by exact Hrun.
  match goal with |- context [wipe_progress _ _ _ ?s1 _] =>
    destruct (wipe_progress_spec e size skipFactor s1 w2)
      as (s' & w' & Hrun' & _ & Hbp & _ & Hwr' & _)
  end.
  exists s', w'. split; [exact Hrun'|]. split; [exact Hbp|].
  rewrite Hwr', Hwr. cbn [trace]. rewrite write_sizes_app, total_app.
  cbn. lia.
Qed.

Lemma zero_buffer_loop fuel : forall s w,
  bytesProcessed s = 0 ->
  wipe_loop e size 0 skipFactor buffer fuel s w = OutOfFuel.
Proof.
  induction fuel as [|fuel IH]; intros s w Hz; cbn [wipe_loop]; rewrite Hz;
    destruct (Z.ltb_spec 0 size); try lia.
  - reflexivity.
  - destruct (zero_buffer_iter s w Hz) as (s' & w' & Hrun & Hz' & _).
    erewrite bind_Ret by exact Hrun. apply IH. exact Hz'.
Qed.

Lemma negative_buffer_loop bufferSize fuel s w :
  bufferSize < 0 ->
  bytesProcessed s = 0 ->
  wipe_loop e size bufferSize skipFactor buffer (S fuel) s w = Panic.
Proof.
  intros Hneg Hz. cbn [wipe_loop]. rewrite Hz.
  destruct (Z.ltb_spec 0 size); [|lia].
  unfold bind, wipe_iter, bind, wipe_write, bind, rand_Read.
  rewrite (h_rand e Hhealthy). cbn [negb]. unfold wipe_writeSize. rewrite Hz.
  rewrite sub_small
    by (unfold Int64.in_range, Int64.min_int, Int64.max_int in *; lia).
  destruct (Z.ltb_spec (size - 0) bufferSize); [lia|].
  unfold lift, reslice.
  destruct (Z.leb_spec 0 bufferSize); [lia|]. reflexivity.
Qed.

End NoBuffer.

(** X8: the buffer size is not checked anywhere.  With [bufferSize = 0]
    every turn writes an empty slice and gains nothing, so on a system
    where nothing fails the pass never returns; with a negative
    [bufferSize] the first turn takes [buffer[:bufferSize]] and the pass
    panics. *)
Theorem wipe_buffer_not_positive (e : env) (size skipFactor : Z) (fuel : nat) :
  healthy e ->
  0 <= heap_addr e <= Int64.max_int ->
  0 < size <= Int64.max_int ->
  wipeDevice e fuel size 0 skipFactor fresh = OutOfFuel /\
  forall bufferSize,
    Int64.min_int <= bufferSize < 0 ->
    wipeDevice e (S fuel) size bufferSize skipFactor fresh = Panic.
Proof.
  intros Hh Ha Hs. assert (Hmax : Int64.max_int = 2 ^ 63 - 1) by reflexivity.
  destruct (open_device_healthy e fresh Hh) as (w1 & Hopen & _).
  pose proof (Z.mod_pos_bound (4096 - heap_addr e mod 4096) 4096 ltac:(lia)).
  split.
  - assert (Hpass : wipe_pass e fuel size 0 skipFactor fresh = OutOfFuel).
    { unfold wipe_pass. erewrite bind_Ret by exact Hopen.
      change (alignedBufferSize 0) with 4096.
      rewrite allocAlignedBuffer_spec by lia.
      erewrite bind_Ret by reflexivity.
      erewrite bind_Ret by reflexivity.
      unfold bind.
      rewrite zero_buffer_loop;
        [reflexivity | exact Hh | exact Hs | cbn [s_cap]; lia | reflexivity]. }
    unfold wipeDevice, bind. rewrite Hpass. reflexivity.
  - intros bufferSize Hb.
    assert (Hpass : wipe_pass e (S fuel) size bufferSize skipFactor fresh
                    = Panic).
    { unfold wipe_pass. erewrite bind_Ret by exact Hopen.
      rewrite alignedBufferSize_negative by exact Hb.
      rewrite allocAlignedBuffer_spec by lia.
      erewrite bind_Ret by reflexivity.
      erewrite bind_Ret by reflexivity.
      unfold bind.
      rewrite negative_buffer_loop;
        [reflexivity | exact Hh | exact Hs | lia | reflexivity]. }
    unfold wipeDevice, bind. rewrite Hpass. reflexivity.
Qed.

Lemma wipe_buffer_not_positive_witness :
  healthy small_device /\
  0 <= heap_addr small_device <= Int64.max_int /\
  0 < 20000 <= Int64.max_int /\
  Int64.min_int <= - 1 < 0 /\
  wipeDevice small_device 1000 20000 0 1 fresh = OutOfFuel /\
  wipeDevice small_device 1001 20000 (- 1) 1 fresh = Panic.
Proof.
  assert (H2 : 0 <= heap_addr small_device <= Int64.max_int)
    by (vm_compute; split; discriminate).
  assert (H3 : 0 < 20000 <= Int64.max_int) by (unfold Int64.max_int; lia).
  assert (H4 : Int64.min_int <= - 1 < 0) by (unfold Int64.min_int; lia).
  destruct (wipe_buffer_not_positive small_device 20000 1 1000
              (steady_healthy _ _ _ : healthy small_device) H2 H3)
    as [Hzero Hneg].
  split; [apply steady_healthy|]. split; [exact H2|]. split; [exact H3|].
  split; [exact H4|]. split; [exact Hzero|exact (Hneg (- 1) H4)].
Defined.

(** * The command line *)

Lemma calculatedSkip_positive deviceSize targetHours writeSpeed :
  1 <= calculatedSkip deviceSize targetHours writeSpeed.
Proof.
  unfold calculatedSkip.
  destruct (Z.ltb_spec (int_of_float64
                          (float64_of_int64 deviceSize / (targetHours * 3600)
                           / writeSpeed)%float) 1); lia.
Qed.

Lemma confirm_erase_spec fl deviceSize skipFactor answers out w :
  (exists out',
     confirm_erase fl deviceSize skipFactor answers out w
     = Proceed deviceSize skipFactor out' w /\
     (f_force fl = true \/ nth 0 answers EmptyString = "YES"%string)) \/
  (exists out',
     confirm_erase fl deviceSize skipFactor answers out w
     = Stop (Exited 0 out' w) /\
     f_force fl = false /\
     String.eqb (nth 0 answers EmptyString) "YES" = false).
Proof.
  unfold confirm_erase. destruct (f_force fl); cbn [negb].
  - left. eexists. split; [reflexivity|]. left. reflexivity.
  - destruct answers as [|a rest]; cbn [Scanln nth].
    + right. eexists. split; [reflexivity|]. split; reflexivity.
    + destruct (String.eqb a "YES") eqn:E; cbn [negb].
      * left. eexists. split; [reflexivity|]. right.
        apply String.eqb_eq. exact E.
      * right. eexists. split; [reflexivity|]. split; reflexivity.
Qed.

Lemma confirm_path_spec fl deviceSize skipFactor answers out w :
  (exists out',
     confirm_path fl deviceSize skipFactor answers out w
     = Proceed deviceSize skipFactor out' w /\
     confirmed fl answers = true) \/
  (exists out',
     confirm_path fl deviceSize skipFactor answers out w
     = Stop (Exited 0 out' w) /\
     confirmed fl answers = false).
Proof.
  unfold confirm_path, confirmed.
  destruct (HasPrefix (f_device fl) "/dev/") eqn:Edev; cbn [negb andb].
  - destruct (confirm_erase_spec fl deviceSize skipFactor answers out w)
      as [(out' & Hrun & Hyes)|(out' & Hrun & Hforce & Hno)].
    + left. exists out'. split; [exact Hrun|].
      destruct Hyes as [-> | ->]; [reflexivity|].
      apply orb_true_r.
    + right. exists out'. split; [exact Hrun|].
      rewrite Hforce, Hno. reflexivity.
  - destruct (f_force fl) eqn:Eforce; cbn [negb orb].
    + destruct (confirm_erase_spec fl deviceSize skipFactor answers out w)
        as [(out' & Hrun & _)|(out' & _ & Hforce & _)]; [|congruence].
      left. exists out'. split; [exact Hrun|reflexivity].
    + destruct answers as [|a rest]; cbn [Scanln nth].
      * right. eexists. split; reflexivity.
      * destruct (HasPrefix (ToLower a) "y") eqn:Ey; cbn [negb andb].
        -- destruct (confirm_erase_spec fl deviceSize skipFactor rest
                       (out ++ [LineNotDevice; LineDestructive;
                                LinePromptContinue]) w)
             as [(out' & Hrun & Hyes)|(out' & Hrun & _ & Hno)].
           ++ left. exists out'. split; [exact Hrun|].
              destruct Hyes as [Hf | Hyes]; [congruence|].
              replace (nth 1 (a :: rest) EmptyString)
                with (nth 0 rest EmptyString) by (destruct rest; reflexivity).
              rewrite Hyes. reflexivity.
           ++ right. exists out'. split; [exact Hrun|].
              replace (nth 1 (a :: rest) EmptyString)
                with (nth 0 rest EmptyString) by (destruct rest; reflexivity).
              exact Hno.
        -- right. eexists. split; reflexivity.
Qed.

(** X9: [main] reaches the call of [wipeDevice] only for a non-empty device
    path whose size could be probed, with a skip factor of at least 1, and
    only when the user agreed: with [-force], or by typing [YES] at the
    final question (after a [y...] answer to the question about a path
    outside [/dev/], when that one is asked). *)
Theorem main_needs_consent (e : env) (fuel : nat) (fl : flags)
      (answers : list string) (w : world)
      (deviceSize skipFactor : Z) (out : list cli_line) (w' : world) :
  main_prepare e fuel fl answers w = Proceed deviceSize skipFactor out w' ->
  confirmed fl answers = true /\
  f_device fl <> EmptyString /\
  1 <= skipFactor /\
  device_size e = Some deviceSize /\
  (f_autoSkip fl = false -> skipFactor = f_skip fl /\ w' = w).
Proof.
  unfold main_prepare.
  destruct (String.eqb (f_device fl) EmptyString) eqn:Ed; [discriminate|].
  apply String.eqb_neq in Ed.
  destruct ((f_skip fl <? 1) && negb (f_autoSkip fl)) eqn:Es;
    [discriminate|].
  unfold getDeviceSize.
  destruct (device_size e) as [d|]; cbn [orfail]; [|discriminate].
  unfold ret at 1.
  destruct (f_autoSkip fl) eqn:Ea.
  - destruct (benchmarkWriteSpeed e (f_buffer fl) fuel w)
      as [[speed wb]| | |]; try discriminate.
    match goal with |- confirm_path _ _ ?k _ ?o _ = _ -> _ =>
      destruct (confirm_path_spec fl d k answers o wb)
        as [(out' & Hrun & Hc)|(out' & Hrun & _)]
    end; rewrite Hrun; [|discriminate].
    intros H. injection H as <- <- _ _.
    split; [exact Hc|]. split; [exact Ed|].
    split; [apply calculatedSkip_positive|].
    split; [reflexivity|discriminate].
  - destruct (confirm_path_spec fl d (f_skip fl) answers [] w)
      as [(out' & Hrun & Hc)|(out' & Hrun & _)];
      rewrite Hrun; [|discriminate].
    intros H. injection H as <- <- _ <-.
    split; [exact Hc|]. split; [exact Ed|].
    rewrite andb_true_r in Es. apply Z.ltb_ge in Es.
    split; [lia|]. split; [reflexivity|]. intros _. split; reflexivity.
Qed.

Lemma main_needs_consent_witness :
  exists out,
    main_prepare small_device 0 image_flags ["y"; "YES"]%string fresh
    = Proceed 20000 1 out fresh /\
    confirmed image_flags ["y"; "YES"]%string = true /\
    f_device image_flags <> EmptyString /\
    1 <= 1 /\
    device_size small_device = Some 20000 /\
    (f_autoSkip image_flags = false -> 1 = f_skip image_flags /\ fresh = fresh).
Proof.
  eexists.
  assert (Hrun : main_prepare small_device 0 image_flags ["y"; "YES"]%string
                   fresh = Proceed 20000 1 _ fresh) by reflexivity.
  split; [exact Hrun|].
  exact (main_needs_consent small_device 0 image_flags ["y"; "YES"]%string
           fresh 20000 1 _ fresh Hrun).
Defined.

(** X10: without [-auto-skip], a run in which the user did not agree ends
    before anything was done to the device: [main] exits with the world it
    started in, or with the error of the size probe. *)
Theorem main_declined_leaves_device (e : env) (fuel : nat) (fl : flags)
      (answers : list string) (w : world) :
  f_autoSkip fl = false ->
  confirmed fl answers = false ->
  (exists code out, main e fuel fl answers w = Exited code out w) \/
  (exists out, main e fuel fl answers w = ExitedOnError ErrProbe out).
Proof.
  intros Ha Hc. unfold main, main_prepare. rewrite Ha.
  destruct (String.eqb (f_device fl) EmptyString).
  { left. do 2 eexists. reflexivity. }
  destruct ((f_skip fl <? 1) && negb false).
  { left. do 2 eexists. reflexivity. }
  unfold getDeviceSize.
  destruct (device_size e) as [d|]; cbn [orfail].
  - unfold ret at 1.
    destruct (confirm_path_spec fl d (f_skip fl) answers [] w)
      as [(out' & _ & Hc')|(out' & Hrun & _)]; [congruence|].
    rewrite Hrun. left. do 2 eexists. reflexivity.
  - right. eexists. reflexivity.
Qed.

Lemma main_declined_leaves_device_witness :
  f_autoSkip image_flags = false /\
  confirmed image_flags ["y"; "yes"]%string = false /\
  ((exists code out,
      main small_device 100 image_flags ["y"; "yes"]%string fresh
      = Exited code out fresh) \/
   (exists out,
      main small_device 100 image_flags ["y"; "yes"]%string fresh
      = ExitedOnError ErrProbe out)).
Proof.
  split; [reflexivity|]. split; [reflexivity|].
  exact (main_declined_leaves_device small_device 100 image_flags
           ["y"; "yes"]%string fresh eq_refl eq_refl).
Defined.



(** X12: without [-auto-skip], once the user agreed, on a system where
    nothing fails and for a skip factor whose arithmetic does not overflow,
    [main] wipes the device it probed and returns with code 0 after the
    closing line: the bytes written and skipped add up to the device size
    and the writes and seeks are the turns of the specification for the
    flags' buffer size and skip factor. *)
Theorem main_wipes_after_consent (e : env) (fuel : nat) (fl : flags)
      (answers : list string) (size : Z) (buffer : slice) :
  f_device fl <> EmptyString ->
  f_autoSkip fl = false ->
  confirmed fl answers = true ->
  healthy e ->
  device_size e = Some size ->
  0 < size <= Int64.max_int ->
  0 < f_buffer fl <= Int64.max_int ->
  1 <= f_skip fl <= Int64.max_int ->
  no_overflow size (f_buffer fl) (f_skip fl) ->
  allocAlignedBuffer (heap_addr e) (alignedBufferSize (f_buffer fl))
  = Ret buffer ->
  Z.min (f_buffer fl) size <= s_cap buffer ->
  (Z.to_nat size <= fuel)%nat ->
  exists out w,
    main e fuel fl answers fresh = Exited 0 (out ++ [LineDone]) w /\
    total (write_sizes (trace w)) + total (seek_offsets (trace w)) = size /\
    pos w = size /\
    device_ops (trace w)
    = expected_ops fuel size (f_buffer fl) (f_skip fl) 0.
Proof.
  intros Hdev Ha Hc Hh Hsize Hs Hb Hk Hno Halloc Hcap Hfuel.
  destruct (wipeDevice_spec e size (f_buffer fl) (f_skip fl) buffer Hh Hs Hb
              Hk Hno Halloc Hcap fuel fresh Hfuel)
    as (s & w & t & Hrun & Hend & Hcnt & Hwr & Hsk & _ & Hpos & Hops & _).
  unfold main, main_prepare.
  apply String.eqb_neq in Hdev. rewrite Hdev, Ha.
  replace (f_skip fl <? 1) with false by (symmetry; apply Z.ltb_ge; lia).
  cbn [andb]. unfold getDeviceSize. rewrite Hsize.
  cbn [orfail]. unfold ret at 1.
  destruct (confirm_path_spec fl size (f_skip fl) answers [] fresh)
    as [(out' & Hgo & _)|(out' & _ & Hc')]; [|congruence].
  rewrite Hgo, Hrun. exists out', w. split; [reflexivity|].
  change (total (write_sizes (trace fresh))) with 0 in Hwr.
  change (total (seek_offsets (trace fresh))) with 0 in Hsk.
  change (pos fresh) with 0 in Hpos.
  change (device_ops (trace fresh)) with (@nil event) in Hops.
  split; [lia|]. split; [lia|exact Hops].
Qed.

Lemma main_wipes_after_consent_witness :
  f_device image_flags <> EmptyString /\
  f_autoSkip image_flags = false /\
  confirmed image_flags ["Yes"; "YES"]%string = true /\
  healthy small_device /\
  device_size small_device = Some 20000 /\
  0 < 20000 <= Int64.max_int /\
  0 < f_buffer image_flags <= Int64.max_int /\
  1 <= f_skip image_flags <= Int64.max_int /\
  no_overflow 20000 (f_buffer image_flags) (f_skip image_flags) /\
  allocAlignedBuffer (heap_addr small_device)
                     (alignedBufferSize (f_buffer image_flags))
  = Ret (mkSlice page 4096 8192) /\
  Z.min (f_buffer image_flags) 20000 <= s_cap (mkSlice page 4096 8192) /\
  (Z.to_nat 20000 <= Z.to_nat 20000)%nat /\
  exists out w,
    main small_device (Z.to_nat 20000) image_flags ["Yes"; "YES"]%string fresh
    = Exited 0 (out ++ [LineDone]) w /\
    total (write_sizes (trace w)) + total (seek_offsets (trace w)) = 20000 /\
    pos w = 20000 /\
    device_ops (trace w)
    = expected_ops (Z.to_nat 20000) 20000 (f_buffer image_flags)
                   (f_skip image_flags) 0.
Proof.
  assert (H1 : f_device image_flags <> EmptyString) by discriminate.
  assert (H6 : 0 < 20000 <= Int64.max_int) by (unfold Int64.max_int; lia).
  assert (H7 : 0 < f_buffer image_flags <= Int64.max_int)
    by (cbn; unfold Int64.max_int; lia).
  assert (H8 : 1 <= f_skip image_flags <= Int64.max_int)
    by (cbn; unfold Int64.max_int; lia).
  assert (H9 : no_overflow 20000 (f_buffer image_flags) (f_skip image_flags))
    by (left; reflexivity).
  assert (H11 : Z.min (f_buffer image_flags) 20000
                <= s_cap (mkSlice page 4096 8192)) by (cbn; lia).
  split; [exact H1|]. split; [reflexivity|]. split; [reflexivity|].
  split; [apply steady_healthy|]. split; [reflexivity|].
  split; [exact H6|]. split; [exact H7|]. split; [exact H8|].
  split; [exact H9|]. split; [reflexivity|]. split; [exact H11|].
  split; [lia|].
  exact (main_wipes_after_consent small_device (Z.to_nat 20000) image_flags
           ["Yes"; "YES"]%string 20000 (mkSlice page 4096 8192)
           H1 eq_refl eq_refl (steady_healthy _ _ _ : healthy small_device)
           eq_refl H6 H7 H8 H9 eq_refl H11 (le_n _)).
Defined.

(** * The fallback open *)

Section Appends.

Variable P : event -> Prop.

Lemma appends_ret {A : Type} (a : A) : appends P (ret a).
Proof.
  intros w a' w' H. injection H as <- <-. exists []. rewrite app_nil_r.
  split; [reflexivity|constructor].
Qed.

Lemma appends_fail {A : Type} err : appends P (@fail A err).
Proof. intros w a w' H. discriminate. Qed.

Lemma appends_bind {A B : Type} (m : M A) (k : A -> M B) :
  appends P m -> (forall a, appends P (k a)) -> appends P (bind m k).
Proof.
  intros Hm Hk w b w' H. unfold bind in H.
  destruct (m w) as [[a w1]| | |] eqn:E; try discriminate.
  destruct (Hm w a w1 E) as (t1 & Ht1 & Hp1).
  destruct (Hk a w1 b w' H) as (t2 & Ht2 & Hp2).
  exists (t1 ++ t2). rewrite Ht2, Ht1, app_assoc.
  split; [reflexivity|]. apply Forall_app. split; assumption.
Qed.

Lemma appends_lift {A : Type} (o : outcome A) : appends P (lift o).
Proof.
  intros w a w' H. unfold lift in H. destruct o; try discriminate.
  injection H as <- <-. exists []. rewrite app_nil_r.
  split; [reflexivity|constructor].
Qed.

Lemma appends_orfail {A : Type} (r : option A) err : appends P (orfail r err).
Proof. destruct r; [apply appends_ret | apply appends_fail]. Qed.

Lemma appends_emit ev : P ev -> appends P (emit ev).
Proof.
  intros Hp w a w' H. unfold emit in H. injection H as _ <-.
  exists [ev]. split; [reflexivity|]. constructor; [exact Hp|constructor].
Qed.

Lemma appends_rand_Read e : appends P (rand_Read e).
Proof.
  intros w a w' H. unfold rand_Read in H. injection H as _ <-.
  exists []. cbn [trace]. rewrite app_nil_r. split; [reflexivity|constructor].
Qed.

Lemma appends_time_Now e : appends P (time_Now e).
Proof.
  intros w a w' H. unfold time_Now in H. injection H as _ <-.
  exists []. cbn [trace]. rewrite app_nil_r. split; [reflexivity|constructor].
Qed.

Lemma appends_file_Write e b :
  (forall len n, P (EvWrite len n)) -> appends P (file_Write e b).
Proof.
  intros Hp w a w' H. unfold file_Write in H.
  destruct (file_write e (n_write w) (s_len b)); injection H as _ <-.
  - eexists. cbn [trace]. split; [reflexivity|].
    constructor; [apply Hp|constructor].
  - exists []. cbn [trace]. rewrite app_nil_r.
    split; [reflexivity|constructor].
Qed.

Lemma appends_file_Seek e d wh :
  (forall d' wh', P (EvSeek d' wh')) -> appends P (file_Seek e d wh).
Proof.
  intros Hp w a w' H. unfold file_Seek in H.
  destruct (file_seek e (n_seek w)); injection H as _ <-.
  - eexists. cbn [trace]. split; [reflexivity|].
    constructor; [apply Hp|constructor].
  - exists []. cbn [trace]. rewrite app_nil_r.
    split; [reflexivity|constructor].
Qed.

End Appends.

Lemma quiet_write len n : not_fallback_warning (EvWrite len n).
Proof. discriminate. Qed.

Lemma quiet_seek d wh : not_fallback_warning (EvSeek d wh).
Proof. discriminate. Qed.

Lemma quiet_wipe_iter e size bufferSize skipFactor buffer s :
  appends not_fallback_warning
          (wipe_iter e size bufferSize skipFactor buffer s).
Proof.
  unfold wipe_iter. apply appends_bind.
  - unfold wipe_write. apply appends_bind; [apply appends_rand_Read|].
    intros ok. destruct (negb ok); [apply appends_fail|].
    apply appends_bind; [apply appends_lift|]. intros b.
    apply appends_bind; [apply appends_file_Write, quiet_write|].
    intros r. apply appends_orfail.
  - intros n. cbv zeta. apply appends_bind.
    + unfold wipe_skip. destruct (_ && _); [|apply appends_ret].
      cbv zeta. apply appends_bind; [apply appends_file_Seek, quiet_seek|].
      intros r. apply appends_bind; [apply appends_orfail|].
      intros _. apply appends_ret.
    + intros p. unfold wipe_progress.
      apply appends_bind; [apply appends_time_Now|]. intros t.
      destruct (_ <=? _); [|apply appends_ret].
      unfold progress_update.
      apply appends_bind; [apply appends_emit; discriminate|].
      intros _. apply appends_ret.
Qed.

Lemma quiet_wipe_loop e size bufferSize skipFactor buffer fuel : forall s,
  appends not_fallback_warning
          (wipe_loop e size bufferSize skipFactor buffer fuel s).
Proof.
  induction fuel as [|fuel IH]; intros s; cbn [wipe_loop];
    destruct (_ <? _); try apply appends_ret.
  - intros w a w' H. discriminate.
  - apply appends_bind; [apply quiet_wipe_iter|]. intros s'. apply IH.
Qed.

Lemma quiet_bench_loop e bufferSize fuel : forall benchSize buffer written,
  appends not_fallback_warning
          (bench_loop e bufferSize fuel benchSize buffer written).
Proof.
  induction fuel as [|fuel IH]; intros benchSize buffer written;
    cbn [bench_loop]; destruct (_ <? _); try apply appends_ret.
  - intros w a w' H. discriminate.
  - apply appends_bind; [apply appends_rand_Read|].
    intros ok. destruct (negb ok); [apply appends_fail|].
    cbv zeta. apply appends_bind; [apply appends_lift|]. intros b.
    apply appends_bind; [apply appends_file_Write, quiet_write|].
    intros r. apply appends_bind; [apply appends_orfail|]. intros n.
    apply appends_bind; [apply appends_emit; discriminate|].
    intros _. apply IH.
Qed.

Lemma messages_quiet t :
  Forall not_fallback_warning t -> ~ In WarnDirectIO (messages t).
Proof.
  induction 1 as [|ev t Hev Ht IH]; [intros []|].
  destruct ev; cbn; try exact IH.
  intros [E|Hin]; [|exact (IH Hin)].
  apply Hev. rewrite E. reflexivity.
Qed.

(** What follows the open in [wipeDevice] and in [benchmarkWriteSpeed]
    never prints the fallback warning. *)
Lemma quiet_after_open_wipe e fuel size bufferSize skipFactor :
  appends not_fallback_warning
    (buffer <- lift (allocAlignedBuffer (heap_addr e)
                                        (alignedBufferSize bufferSize)) ;;
     startTime <- time_Now e ;;
     s <- wipe_loop e size bufferSize skipFactor buffer fuel
                    (mkWipe 0 0 startTime 0 0%float) ;;
     x <- ret (startTime, s) ;;
     let (startTime, s) := x in
     totalTime <- time_Since e startTime ;;
     print (summary size skipFactor totalTime s) ;;;
     ok <- file_Sync e ;;
     (if ok then ret tt else print WarnFinalSync) ;;;
     ret s).
Proof.
  apply appends_bind; [apply appends_lift|]. intros buffer.
  apply appends_bind; [apply appends_time_Now|]. intros startTime.
  apply appends_bind; [apply quiet_wipe_loop|]. intros s.
  apply appends_bind; [apply appends_ret|]. intros [t0 s0].
  apply appends_bind.
  { unfold time_Since. apply appends_bind; [apply appends_time_Now|].
    intros now. apply appends_ret. }
  intros totalTime.
  apply appends_bind; [apply appends_emit; discriminate|]. intros _.
  apply appends_bind.
  { unfold file_Sync. apply appends_bind; [apply appends_emit; discriminate|].
    intros _. apply appends_ret. }
  intros ok. apply appends_bind; [|intros _; apply appends_ret].
  destruct ok; [apply appends_ret | apply appends_emit; discriminate].
Qed.

Lemma quiet_after_open_bench e bufferSize fuel :
  appends not_fallback_warning
    (buffer <- lift (allocAlignedBuffer (heap_addr e)
                                        (alignedBufferSize bufferSize)) ;;
     deviceSize <- getDeviceSize e ;;
     print (BenchStart (benchVolume bufferSize deviceSize)) ;;;
     startTime <- time_Now e ;;
     r <- file_Seek e 0 SeekCurrent ;;
     originalPos <- orfail r ErrSeek ;;
     written <- bench_loop e bufferSize fuel
                           (benchVolume bufferSize deviceSize) buffer 0 ;;
     x <- ret (originalPos, startTime, written) ;;
     let '(originalPos, startTime, written) := x in
     r <- file_Seek e originalPos SeekStart ;;
     orfail r ErrRestore ;;;
     ok <- file_Sync e ;;
     if negb ok then fail ErrBenchSync else
     elapsed <- time_Since e startTime ;;
     print (BenchDone written (Seconds elapsed)) ;;;
     ret (float64_of_int64 written / Seconds elapsed)%float).
Proof.
  apply appends_bind; [apply appends_lift|]. intros buffer.
  apply appends_bind; [apply appends_orfail|]. intros deviceSize.
  apply appends_bind; [apply appends_emit; discriminate|]. intros _.
  apply appends_bind; [apply appends_time_Now|]. intros startTime.
  apply appends_bind; [apply appends_file_Seek, quiet_seek|]. intros r.
  apply appends_bind; [apply appends_orfail|]. intros originalPos.
  apply appends_bind; [apply quiet_bench_loop|]. intros written.
  apply appends_bind; [apply appends_ret|]. intros [[op st] wr].
  apply appends_bind; [apply appends_file_Seek, quiet_seek|]. intros r'.
  apply appends_bind; [apply appends_orfail|]. intros _.
  apply appends_bind.
  { unfold file_Sync. apply appends_bind; [apply appends_emit; discriminate|].
    intros _. apply appends_ret. }
  intros ok. destruct (negb ok); [apply appends_fail|].
  apply appends_bind.
  { unfold time_Since. apply appends_bind; [apply appends_time_Now|].
    intros now. apply appends_ret. }
  intros elapsed.
  apply appends_bind; [apply appends_emit; discriminate|]. intros _.
  apply appends_ret.
Qed.

Lemma open_device_messages e w w' :
  open_device e w = Ret (tt, w') ->
  trace w' = trace w ++ (if open_direct e then []
                         else [EvPrint WarnDirectIO]).
Proof.
  unfold open_device. destruct (open_direct e).
  - unfold ret. intros H. injection H as <-. symmetry. apply app_nil_r.
  - unfold bind, print, emit. destruct (open_sync e); [|discriminate].
    unfold ret. intros H. injection H as <-. reflexivity.
Qed.

Lemma reported_after_open {A : Type} e (k : M A) a w :
  appends not_fallback_warning k ->
  (open_device e ;;; k) fresh = Ret (a, w) ->
  exists rest,
    messages (trace w)
    = (if open_direct e then [] else [WarnDirectIO]) ++ rest /\
    ~ In WarnDirectIO rest.
Proof.
  intros Hk H. unfold bind in H.
  destruct (open_device e fresh) as [[[] w1]| | |] eqn:Eo; try discriminate.
  apply open_device_messages in Eo. cbn [fresh trace app] in Eo.
  destruct (Hk w1 a w H) as (t & Ht & Hq).
  exists (messages t). rewrite Ht, Eo, messages_app.
  split; [destruct (open_direct e); reflexivity|].
  apply messages_quiet. exact Hq.
Qed.

(** X13: the fallback from direct to buffered synchronized I/O is always
    visible.  Whenever [wipeDevice] or [benchmarkWriteSpeed] returns
    without an error, the warning about direct I/O is the first line it
    printed if the first open failed, and is printed nowhere else. *)
Theorem fallback_open_is_reported (e : env) (fuel : nat)
      (size bufferSize skipFactor : Z) :
  (forall s w,
     wipeDevice e fuel size bufferSize skipFactor fresh = Ret (s, w) ->
     exists rest,
       messages (trace w)
       = (if open_direct e then [] else [WarnDirectIO]) ++ rest /\
       ~ In WarnDirectIO rest) /\
  (forall speed w,
     benchmarkWriteSpeed e bufferSize fuel fresh = Ret (speed, w) ->
     exists rest,
       messages (trace w)
       = (if open_direct e then [] else [WarnDirectIO]) ++ rest /\
       ~ In WarnDirectIO rest).
Proof.
  split.
  - intros s w H.
    apply (reported_after_open e _ s w
             (quiet_after_open_wipe e fuel size bufferSize skipFactor)).
    rewrite <- H. unfold wipeDevice, wipe_pass, bind.
    destruct (open_device e fresh) as [[[] w1]| | |]; try reflexivity.
    destruct (lift _ w1) as [[buffer w2]| | |]; try reflexivity.
    destruct (time_Now e w2) as [[t w3]| | |]; try reflexivity.
    destruct (wipe_loop _ _ _ _ _ _ _ w3) as [[s' w4]| | |]; reflexivity.
  - intros speed w H.
    apply (reported_after_open e _ speed w
             (quiet_after_open_bench e bufferSize fuel)).
    rewrite <- H. unfold benchmarkWriteSpeed, benchmark_writes, bind.
    destruct (open_device e fresh) as [[[] w1]| | |]; try reflexivity.
    destruct (lift _ w1) as [[buffer w2]| | |]; try reflexivity.
    destruct (getDeviceSize e w2) as [[d w3]| | |]; try reflexivity.
    destruct (print _ w3) as [[[] w4]| | |]; try reflexivity.
    destruct (time_Now e w4) as [[t w5]| | |]; try reflexivity.
    destruct (file_Seek e 0 SeekCurrent w5) as [[r w6]| | |];
      try reflexivity.
    destruct (orfail r ErrSeek w6) as [[op w7]| | |]; try reflexivity.
    destruct (bench_loop _ _ _ _ _ _ w7) as [[wr w8]| | |]; reflexivity.
Qed.

Lemma fallback_open_is_reported_witness :
  (exists s w rest,
     wipeDevice buffered_only 5 20000 4096 1 fresh = Ret (s, w) /\
     messages (trace w) = [WarnDirectIO] ++ rest /\
     ~ In WarnDirectIO rest) /\
  (exists speed w rest,
     benchmarkWriteSpeed buffered_only 4096 5 fresh = Ret (speed, w) /\
     messages (trace w) = [WarnDirectIO] ++ rest /\
     ~ In WarnDirectIO rest).
Proof.
  pose proof (fallback_open_is_reported buffered_only 5 20000 4096 1)
    as [Hwipe Hbench].
  split.
  - do 2 eexists.
    assert (Hrun : wipeDevice buffered_only 5 20000 4096 1 fresh = Ret (_, _))
      by (vm_compute; reflexivity).
    destruct (Hwipe _ _ Hrun) as (rest & Hm & Hq).
    exists rest. split; [exact Hrun|]. split; [exact Hm|exact Hq].
  - do 2 eexists.
    assert (Hrun : benchmarkWriteSpeed buffered_only 4096 5 fresh
                   = Ret (_, _)) by (vm_compute; reflexivity).
    destruct (Hbench _ _ Hrun) as (rest & Hm & Hq).
    exists rest. split; [exact Hrun|]. split; [exact Hm|exact Hq].
Defined.

(** * The size of a write *)

Lemma appends_bind_lift (P : event -> Prop) {A B : Type} (o : outcome A)
      (k : A -> M B) :
  (forall a, o = Ret a -> appends P (k a)) -> appends P (bind (lift o) k).
Proof.
  intros Hk w b w' H. unfold bind, lift in H.
  destruct o as [a| | |]; try discriminate.
  exact (Hk a eq_refl w b w' H).
Qed.

Lemma appends_file_Write_len (P : event -> Prop) e b :
  (forall n, P (EvWrite (s_len b) n)) -> appends P (file_Write e b).
Proof.
  intros Hp w a w' H. unfold file_Write in H.
  destruct (file_write e (n_write w) (s_len b)); injection H as _ <-.
  - eexists. cbn [trace]. split; [reflexivity|].
    constructor; [apply Hp|constructor].
  - exists []. cbn [trace]. rewrite app_nil_r.
    split; [reflexivity|constructor].
Qed.

Lemma reslice_len b hi b' :
  reslice b 0 hi = Ret b' -> s_len b' = hi /\ 0 <= hi.
Proof.
  unfold reslice. change (0 <=? 0) with true.
  destruct (Z.leb_spec 0 hi) as [Hhi|Hhi]; cbn [andb]; [|discriminate].
  destruct (hi <=? s_cap b); [|discriminate].
  intros E. injection E as <-. cbn [s_len]. lia.
Qed.

Lemma wipe_writeSize_le size bufferSize s :
  wipe_writeSize size bufferSize s <= bufferSize.
Proof.
  unfold wipe_writeSize.
  destruct (Z.ltb_spec (Int64.sub size (bytesProcessed s)) bufferSize); lia.
Qed.

Lemma bounded_wipe_loop e size bufferSize skipFactor buffer fuel : forall s,
  appends (write_within bufferSize)
          (wipe_loop e size bufferSize skipFactor buffer fuel s).
Proof.
  induction fuel as [|fuel IH]; intros s; cbn [wipe_loop];
    destruct (_ <? _); try apply appends_ret.
  - intros w a w' H. discriminate.
  - apply appends_bind; [|intros s'; apply IH].
    unfold wipe_iter. apply appends_bind.
    + unfold wipe_write. apply appends_bind; [apply appends_rand_Read|].
      intros ok. destruct (negb ok); [apply appends_fail|].
      apply appends_bind_lift. intros b Hb.
      apply reslice_len in Hb. destruct Hb as [Hlen Hpos].
      apply appends_bind; [|intros r; apply appends_orfail].
      apply appends_file_Write_len. intros n. cbn. rewrite Hlen.
      pose proof (wipe_writeSize_le size bufferSize s). lia.
    + intros n. cbv zeta. apply appends_bind.
      * unfold wipe_skip. destruct (_ && _); [|apply appends_ret].
        cbv zeta.
        apply appends_bind;
          [apply appends_file_Seek; exact (fun _ _ => I)|].
        intros r. apply appends_bind; [apply appends_orfail|].
        intros _. apply appends_ret.
      * intros p. unfold wipe_progress.
        apply appends_bind; [apply appends_time_Now|]. intros t.
        destruct (_ <=? _); [|apply appends_ret].
        unfold progress_update.
        apply appends_bind; [apply appends_emit; exact I|].
        intros _. apply appends_ret.
Qed.

Lemma bounded_bench_loop e bufferSize fuel : forall benchSize buffer written,
  appends (write_within bufferSize)
          (bench_loop e bufferSize fuel benchSize buffer written).
Proof.
  induction fuel as [|fuel IH]; intros benchSize buffer written;
    cbn [bench_loop]; destruct (_ <? _); try apply appends_ret.
  - intros w a w' H. discriminate.
  - apply appends_bind; [apply appends_rand_Read|].
    intros ok. destruct (negb ok); [apply appends_fail|].
    cbv zeta. apply appends_bind_lift. intros b Hb.
    apply reslice_len in Hb. destruct Hb as [Hlen Hpos].
    apply appends_bind.
    { apply appends_file_Write_len. intros n. cbn. rewrite Hlen.
      destruct (Z.ltb_spec (Int64.sub benchSize written) bufferSize); lia. }
    intros r. apply appends_bind; [apply appends_orfail|]. intros n.
    apply appends_bind; [apply appends_emit; exact I|].
    intros _. apply IH.
Qed.

Lemma appends_open_device P e :
  P (EvPrint WarnDirectIO) -> appends P (open_device e).
Proof.
  intros Hp. unfold open_device. destruct (open_direct e);
    [apply appends_ret|].
  apply appends_bind; [apply appends_emit; exact Hp|]. intros _.
  destruct (open_sync e); [apply appends_ret | apply appends_fail].
Qed.

Lemma appends_file_Sync P e :
  (forall ok, P (EvSync ok)) -> appends P (file_Sync e).
Proof.
  intros Hp. unfold file_Sync.
  apply appends_bind; [apply appends_emit, Hp|]. intros _. apply appends_ret.
Qed.

Lemma appends_time_Since P e t : appends P (time_Since e t).
Proof.
  unfold time_Since. apply appends_bind; [apply appends_time_Now|].
  intros now. apply appends_ret.
Qed.

(** X14: whatever the system answers, in a run of [wipeDevice] or of
    [benchmarkWriteSpeed] that returns without an error every write
    requested between 0 and [bufferSize] bytes: no call ever passes more
    than one buffer to [Write]. *)
Theorem writes_within_buffer (e : env) (fuel : nat)
      (size bufferSize skipFactor : Z) :
  (forall s w,
     wipeDevice e fuel size bufferSize skipFactor fresh = Ret (s, w) ->
     Forall (write_within bufferSize) (trace w)) /\
  (forall speed w,
     benchmarkWriteSpeed e bufferSize fuel fresh = Ret (speed, w) ->
     Forall (write_within bufferSize) (trace w)).
Proof.
  split.
  - intros s w H.
    assert (Ha : appends (write_within bufferSize)
                         (wipeDevice e fuel size bufferSize skipFactor)).
    { unfold wipeDevice. apply appends_bind.
      - unfold wipe_pass.
        apply appends_bind; [apply appends_open_device; exact I|]. intros _.
        apply appends_bind; [apply appends_lift|]. intros buffer.
        apply appends_bind; [apply appends_time_Now|]. intros startTime.
        apply appends_bind; [apply bounded_wipe_loop|]. intros s'.
        apply appends_ret.
      - intros [startTime s'].
        apply appends_bind; [apply appends_time_Since|]. intros totalTime.
        apply appends_bind; [apply appends_emit; exact I|]. intros _.
        apply appends_bind; [apply appends_file_Sync; exact (fun _ => I)|].
        intros ok. apply appends_bind; [|intros _; apply appends_ret].
        destruct ok; [apply appends_ret | apply appends_emit; exact I]. }
    destruct (Ha fresh s w H) as (t & Ht & Hp).
    rewrite Ht. exact Hp.
  - intros speed w H.
    assert (Ha : appends (write_within bufferSize)
                         (benchmarkWriteSpeed e bufferSize fuel)).
    { unfold benchmarkWriteSpeed. apply appends_bind.
      - unfold benchmark_writes.
        apply appends_bind; [apply appends_open_device; exact I|]. intros _.
        apply appends_bind; [apply appends_lift|]. intros buffer.
        apply appends_bind; [apply appends_orfail|]. intros deviceSize.
        cbv zeta.
        apply appends_bind; [apply appends_emit; exact I|]. intros _.
        apply appends_bind; [apply appends_time_Now|]. intros startTime.
        apply appends_bind;
          [apply appends_file_Seek; exact (fun _ _ => I)|]. intros r.
        apply appends_bind; [apply appends_orfail|]. intros originalPos.
        apply appends_bind; [apply bounded_bench_loop|]. intros written.
        apply appends_ret.
      - intros [[originalPos startTime] written].
        apply appends_bind;
          [apply appends_file_Seek; exact (fun _ _ => I)|]. intros r.
        apply appends_bind; [apply appends_orfail|]. intros _.
        apply appends_bind; [apply appends_file_Sync; exact (fun _ => I)|].
        intros ok. destruct (negb ok); [apply appends_fail|].
        apply appends_bind; [apply appends_time_Since|]. intros elapsed.
        cbv zeta.
        apply appends_bind; [apply appends_emit; exact I|]. intros _.
        apply appends_ret. }
    destruct (Ha fresh speed w H) as (t & Ht & Hp).
    rewrite Ht. exact Hp.
Qed.

Lemma writes_within_buffer_witness :
  exists s w,
    wipeDevice small_device 5 20000 5000 1 fresh = Ret (s, w) /\
    Forall (write_within 5000) (trace w) /\
    write_sizes (trace w) = [5000; 5000; 5000; 5000].
Proof.
  do 2 eexists.
  assert (Hrun : wipeDevice small_device 5 20000 5000 1 fresh = Ret (_, _))
    by (vm_compute; reflexivity).
  split; [exact Hrun|]. split; [|reflexivity].
  exact (proj1 (writes_within_buffer small_device 5 20000 5000 1) _ _ Hrun).
Defined.
